(** * Course Builder cache facade and JSON DAO: a shallow embedding

    This development embeds [MemcacheManager] and [BaseJsonDao] of
    [coursebuilder/models/models.py] as functions over an explicit world
    state in a small state-and-exception monad, and proves properties of
    the cache facade, of the read-only snapshot life cycle and of the
    generic record store. *)

From stdpp Require Import gmap strings list fin_maps pretty.
From Stdlib Require Import ZArith Lia Ascii.

Open Scope Z_scope.

(** ** Python values that travel through the cache *)

(** An object id as the DAO receives it: an [int] or a [str].  A datastore
    key is built from it by [db.Key.from_path], an [int] giving a numeric id
    and a [str] a key name, so the same type serves as the datastore key. *)
Inductive obj_id : Type :=
| IdInt (n : Z)
| IdStr (s : string).

#[global] Instance obj_id_eq_dec : EqDecision obj_id.
Proof. solve_decision. Defined.

#[global] Instance obj_id_countable : Countable obj_id.
Proof.
  refine (inj_countable'
            (fun i => match i with IdInt n => inl n | IdStr s => inr s end)
            (fun x => match x with inl n => IdInt n | inr s => IdStr s end) _).
  by intros [].
Defined.

(** Python truth value of an optional id: [None], [0] and [''] are false. *)
Definition truthy_id (i : option obj_id) : bool :=
  match i with
  | None => false
  | Some (IdInt n) => negb (n =? 0)
  | Some (IdStr s) => negb (String.eqb s "")
  end.

(** ['%s' % obj_id] *)
Definition str_of_id (i : obj_id) : string :=
  match i with
  | IdInt n => pretty n
  | IdStr s => s
  end.

(** [key.id()] and [key.id_or_name()] of a complete datastore key. *)
Definition key_id (k : obj_id) : option obj_id :=
  match k with
  | IdInt n => Some (IdInt n)
  | IdStr _ => None
  end.

Definition id_or_name (k : obj_id) : obj_id := k.

Section Model.

(** The deserialized payload of a record. *)
Context {json : Type}.

(** A DTO: [{id, dict}]. *)
Record dto : Type := DTO { dto_id : option obj_id; dto_dict : json }.

(** A datastore entity: its key (absent until the first [put]) and its
    single JSON blob. *)
Record entity : Type := Entity { ekey : option obj_id; edata : string }.

(** What a cache slot can hold.  [PNoObject] is the module-level object
    [NO_OBJECT = {}] itself; [PDict] is any other dict object.  The two are
    different objects even when [PDict] is empty. *)
Inductive pyval : Type :=
| PNoObject
| PDict (items : gmap obj_id dto)
| PEntity (e : entity)
| PInt (n : Z).

Definition NO_OBJECT : pyval := PNoObject.

(** Identity, [a is NO_OBJECT]. *)
Definition is_NO_OBJECT (v : pyval) : bool :=
  match v with PNoObject => true | _ => false end.

(** Structural equality, [NO_OBJECT == v]: true of every empty dict. *)
Definition eq_NO_OBJECT (v : pyval) : bool :=
  match v with
  | PNoObject => true
  | PDict items => bool_decide (items = ∅)
  | _ => false
  end.

(** Python truth value of what [MemcacheManager.get] returns. *)
Definition truthy (v : option pyval) : bool :=
  match v with
  | None => false
  | Some PNoObject => false
  | Some (PDict items) => negb (bool_decide (items = ∅))
  | Some (PEntity _) => true
  | Some (PInt n) => negb (n =? 0)
  end.

(** The limit of the memcache client on the serialized form of one value
    ([memcache.MAX_VALUE_SIZE]). *)
Definition MAX_VALUE_SIZE : Z := 1000000.

(** The library functions the module calls: [transforms.loads] and
    [transforms.dumps], [int(...)] on a string, and [sys.getsizeof] on a
    value and on a key.  [sys.getsizeof] is the size of the object itself,
    without what it refers to; [pickled_size] is the length of the
    serialized form of a value, which is what the memcache client stores
    and limits.  The empty dict serializes within that limit. *)
Record externals : Type := Externals {
  loads : string -> json;
  dumps : json -> string;
  py_int : string -> option Z;
  sizeof : pyval -> Z;
  sizeof_key : string -> Z;
  pickled_size : pyval -> Z;
  pickled_NO_OBJECT : (pickled_size PNoObject <=? MAX_VALUE_SIZE) = true
}.

Variable ext : externals.

Definition MEMCACHE_MAX : Z := 1024 * 1024 - 96 - 250.
Definition MEMCACHE_MULTI_MAX : Z := 32 * 1024 * 1024.

(** ** The world *)

Record counters : Type := Counters {
  CACHE_PUT : nat;
  CACHE_PUT_TOO_BIG : nat;
  CACHE_HIT : nat;
  CACHE_MISS : nat;
  CACHE_DELETE : nat;
  CACHE_PUT_LOCAL : nat;
  CACHE_HIT_LOCAL : nat;
  CACHE_MISS_LOCAL : nat
}.

(** The four class attributes of [MemcacheManager], the services it
    consumes and the probes on them. *)
Record world : Type := World {
  _LOCAL_CACHE : option (gmap string (gmap string (option pyval)));
  _IS_READONLY : bool;
  _READONLY_REENTRY_COUNT : Z;
  _READONLY_APP_CONTEXT : option nat;
  (* configuration and request environment *)
  CAN_USE_MEMCACHE : bool;
  current_namespace : string;
  request_context : option nat;
  fs_readonly : gset nat;
  (* the distributed cache *)
  memcache_up : bool;
  memcache : gmap (string * string) pyval;
  perf : counters;
  (* the datastore: (kind, key, data) rows in key order, and call counts *)
  datastore : list (string * obj_id * string);
  next_id : Z;
  db_gets : nat;
  db_queries : nat;
  db_puts : nat;
  (* every post-load hook call: hook index and the DTO list it received *)
  hook_log : list (nat * list dto)
}.

Definition set_LOCAL_CACHE (x : option (gmap string (gmap string (option pyval))))
    (w : world) : world :=
  World x (_IS_READONLY w) (_READONLY_REENTRY_COUNT w) (_READONLY_APP_CONTEXT w)
        (CAN_USE_MEMCACHE w) (current_namespace w) (request_context w)
        (fs_readonly w) (memcache_up w) (memcache w) (perf w) (datastore w)
        (next_id w) (db_gets w) (db_queries w) (db_puts w) (hook_log w).

Definition set_IS_READONLY (x : bool) (w : world) : world :=
  World (_LOCAL_CACHE w) x (_READONLY_REENTRY_COUNT w) (_READONLY_APP_CONTEXT w)
        (CAN_USE_MEMCACHE w) (current_namespace w) (request_context w)
        (fs_readonly w) (memcache_up w) (memcache w) (perf w) (datastore w)
        (next_id w) (db_gets w) (db_queries w) (db_puts w) (hook_log w).

Definition set_REENTRY_COUNT (x : Z) (w : world) : world :=
  World (_LOCAL_CACHE w) (_IS_READONLY w) x (_READONLY_APP_CONTEXT w)
        (CAN_USE_MEMCACHE w) (current_namespace w) (request_context w)
        (fs_readonly w) (memcache_up w) (memcache w) (perf w) (datastore w)
        (next_id w) (db_gets w) (db_queries w) (db_puts w) (hook_log w).

Definition set_APP_CONTEXT (x : option nat) (w : world) : world :=
  World (_LOCAL_CACHE w) (_IS_READONLY w) (_READONLY_REENTRY_COUNT w) x
        (CAN_USE_MEMCACHE w) (current_namespace w) (request_context w)
        (fs_readonly w) (memcache_up w) (memcache w) (perf w) (datastore w)
        (next_id w) (db_gets w) (db_queries w) (db_puts w) (hook_log w).

Definition set_request_context (x : option nat) (w : world) : world :=
  World (_LOCAL_CACHE w) (_IS_READONLY w) (_READONLY_REENTRY_COUNT w)
        (_READONLY_APP_CONTEXT w)
        (CAN_USE_MEMCACHE w) (current_namespace w) x
        (fs_readonly w) (memcache_up w) (memcache w) (perf w) (datastore w)
        (next_id w) (db_gets w) (db_queries w) (db_puts w) (hook_log w).

Definition set_fs_readonly (x : gset nat) (w : world) : world :=
  World (_LOCAL_CACHE w) (_IS_READONLY w) (_READONLY_REENTRY_COUNT w)
        (_READONLY_APP_CONTEXT w)
        (CAN_USE_MEMCACHE w) (current_namespace w) (request_context w)
        x (memcache_up w) (memcache w) (perf w) (datastore w)
        (next_id w) (db_gets w) (db_queries w) (db_puts w) (hook_log w).

Definition set_memcache (x : gmap (string * string) pyval) (w : world) : world :=
  World (_LOCAL_CACHE w) (_IS_READONLY w) (_READONLY_REENTRY_COUNT w)
        (_READONLY_APP_CONTEXT w)
        (CAN_USE_MEMCACHE w) (current_namespace w) (request_context w)
        (fs_readonly w) (memcache_up w) x (perf w) (datastore w)
        (next_id w) (db_gets w) (db_queries w) (db_puts w) (hook_log w).

Definition set_perf (x : counters) (w : world) : world :=
  World (_LOCAL_CACHE w) (_IS_READONLY w) (_READONLY_REENTRY_COUNT w)
        (_READONLY_APP_CONTEXT w)
        (CAN_USE_MEMCACHE w) (current_namespace w) (request_context w)
        (fs_readonly w) (memcache_up w) (memcache w) x (datastore w)
        (next_id w) (db_gets w) (db_queries w) (db_puts w) (hook_log w).

Definition set_datastore (x : list (string * obj_id * string)) (w : world) : world :=
  World (_LOCAL_CACHE w) (_IS_READONLY w) (_READONLY_REENTRY_COUNT w)
        (_READONLY_APP_CONTEXT w)
        (CAN_USE_MEMCACHE w) (current_namespace w) (request_context w)
        (fs_readonly w) (memcache_up w) (memcache w) (perf w) x
        (next_id w) (db_gets w) (db_queries w) (db_puts w) (hook_log w).

Definition set_next_id (x : Z) (w : world) : world :=
  World (_LOCAL_CACHE w) (_IS_READONLY w) (_READONLY_REENTRY_COUNT w)
        (_READONLY_APP_CONTEXT w)
        (CAN_USE_MEMCACHE w) (current_namespace w) (request_context w)
        (fs_readonly w) (memcache_up w) (memcache w) (perf w) (datastore w)
        x (db_gets w) (db_queries w) (db_puts w) (hook_log w).

Definition set_db_gets (x : nat) (w : world) : world :=
  World (_LOCAL_CACHE w) (_IS_READONLY w) (_READONLY_REENTRY_COUNT w)
        (_READONLY_APP_CONTEXT w)
        (CAN_USE_MEMCACHE w) (current_namespace w) (request_context w)
        (fs_readonly w) (memcache_up w) (memcache w) (perf w) (datastore w)
        (next_id w) x (db_queries w) (db_puts w) (hook_log w).

Definition set_db_queries (x : nat) (w : world) : world :=
  World (_LOCAL_CACHE w) (_IS_READONLY w) (_READONLY_REENTRY_COUNT w)
        (_READONLY_APP_CONTEXT w)
        (CAN_USE_MEMCACHE w) (current_namespace w) (request_context w)
        (fs_readonly w) (memcache_up w) (memcache w) (perf w) (datastore w)
        (next_id w) (db_gets w) x (db_puts w) (hook_log w).

Definition set_db_puts (x : nat) (w : world) : world :=
  World (_LOCAL_CACHE w) (_IS_READONLY w) (_READONLY_REENTRY_COUNT w)
        (_READONLY_APP_CONTEXT w)
        (CAN_USE_MEMCACHE w) (current_namespace w) (request_context w)
        (fs_readonly w) (memcache_up w) (memcache w) (perf w) (datastore w)
        (next_id w) (db_gets w) (db_queries w) x (hook_log w).

Definition set_hook_log (x : list (nat * list dto)) (w : world) : world :=
  World (_LOCAL_CACHE w) (_IS_READONLY w) (_READONLY_REENTRY_COUNT w)
        (_READONLY_APP_CONTEXT w)
        (CAN_USE_MEMCACHE w) (current_namespace w) (request_context w)
        (fs_readonly w) (memcache_up w) (memcache w) (perf w) (datastore w)
        (next_id w) (db_gets w) (db_queries w) (db_puts w) x.

(** ** Exceptions and the monad *)

Inductive exn : Type :=
| AssertionError (msg : string)
| AttributeError
| TypeError
| ValueError
| BadArgumentError
| NotSavedError
| KeyError.

Inductive result (A : Type) : Type :=
| Ok (a : A) (w : world)
| Raise (e : exn) (w : world).
Arguments Ok {A} a w.
Arguments Raise {A} e w.

Definition M (A : Type) : Type := world -> result A.

Definition pure {A} (a : A) : M A := fun w => Ok a w.
Definition raise {A} (e : exn) : M A := fun w => Raise e w.
Definition bind {A B} (m : M A) (f : A -> M B) : M B :=
  fun w => match m w with
           | Ok a w' => f a w'
           | Raise e w' => Raise e w'
           end.
Definition gets {A} (f : world -> A) : M A := fun w => Ok (f w) w.
Definition modify (f : world -> world) : M unit := fun w => Ok tt (f w).

(** [try: m  except: h] with a bare [except]; the effects [m] had before it
    raised stay. *)
Definition try_except {A} (m : M A) (h : M A) : M A :=
  fun w => match m w with
           | Ok a w' => Ok a w'
           | Raise _ w' => h w'
           end.

(** The world a computation leaves behind, raised or not. *)
Definition world_of {A} (r : result A) : world :=
  match r with Ok _ w => w | Raise _ w => w end.

Definition raised {A} (r : result A) : bool :=
  match r with Ok _ _ => false | Raise _ _ => true end.


Notation "x <~ m ;; k" := (bind m (fun x => k))
  (at level 100, m at next level, right associativity).
Notation "m ;;; k" := (bind m (fun _ => k))
  (at level 100, right associativity).

(** ** Performance counters *)

(** Modelled from the spec: [PerfCounter.inc] of the [counters] module adds
    the increment to the counter's value. *)
Definition inc_CACHE_PUT (c : counters) : counters :=
  Counters (S (CACHE_PUT c)) (CACHE_PUT_TOO_BIG c) (CACHE_HIT c) (CACHE_MISS c)
           (CACHE_DELETE c) (CACHE_PUT_LOCAL c) (CACHE_HIT_LOCAL c)
           (CACHE_MISS_LOCAL c).
Definition inc_CACHE_PUT_TOO_BIG (c : counters) : counters :=
  Counters (CACHE_PUT c) (S (CACHE_PUT_TOO_BIG c)) (CACHE_HIT c) (CACHE_MISS c)
           (CACHE_DELETE c) (CACHE_PUT_LOCAL c) (CACHE_HIT_LOCAL c)
           (CACHE_MISS_LOCAL c).
Definition inc_CACHE_HIT (k : nat) (c : counters) : counters :=
  Counters (CACHE_PUT c) (CACHE_PUT_TOO_BIG c) (k + CACHE_HIT c)%nat (CACHE_MISS c)
           (CACHE_DELETE c) (CACHE_PUT_LOCAL c) (CACHE_HIT_LOCAL c)
           (CACHE_MISS_LOCAL c).
Definition inc_CACHE_MISS (c : counters) : counters :=
  Counters (CACHE_PUT c) (CACHE_PUT_TOO_BIG c) (CACHE_HIT c) (S (CACHE_MISS c))
           (CACHE_DELETE c) (CACHE_PUT_LOCAL c) (CACHE_HIT_LOCAL c)
           (CACHE_MISS_LOCAL c).
Definition inc_CACHE_DELETE (k : nat) (c : counters) : counters :=
  Counters (CACHE_PUT c) (CACHE_PUT_TOO_BIG c) (CACHE_HIT c) (CACHE_MISS c)
           (k + CACHE_DELETE c)%nat (CACHE_PUT_LOCAL c) (CACHE_HIT_LOCAL c)
           (CACHE_MISS_LOCAL c).
Definition inc_CACHE_PUT_LOCAL (c : counters) : counters :=
  Counters (CACHE_PUT c) (CACHE_PUT_TOO_BIG c) (CACHE_HIT c) (CACHE_MISS c)
           (CACHE_DELETE c) (S (CACHE_PUT_LOCAL c)) (CACHE_HIT_LOCAL c)
           (CACHE_MISS_LOCAL c).
Definition inc_CACHE_HIT_LOCAL (c : counters) : counters :=
  Counters (CACHE_PUT c) (CACHE_PUT_TOO_BIG c) (CACHE_HIT c) (CACHE_MISS c)
           (CACHE_DELETE c) (CACHE_PUT_LOCAL c) (S (CACHE_HIT_LOCAL c))
           (CACHE_MISS_LOCAL c).
Definition inc_CACHE_MISS_LOCAL (c : counters) : counters :=
  Counters (CACHE_PUT c) (CACHE_PUT_TOO_BIG c) (CACHE_HIT c) (CACHE_MISS c)
           (CACHE_DELETE c) (CACHE_PUT_LOCAL c) (CACHE_HIT_LOCAL c)
           (S (CACHE_MISS_LOCAL c)).

Definition count (f : counters -> counters) : M unit :=
  modify (fun w => set_perf (f (perf w)) w).

(** ** The services [MemcacheManager] consumes *)

(** Modelled from the spec: [sites.ApplicationContext.check_same] of the
    [controllers] package; the calling context must match the recorded
    owning context. *)
Definition check_same (recorded : nat) (current : option nat) : bool :=
  match current with
  | Some c => Nat.eqb recorded c
  | None => false
  end.

(** Modelled from the spec: the distributed cache contract of the
    [google.appengine.api.memcache] client.  An outage never raises: a read
    reports a miss, a write is not performed, and the call returns.
    [get_multi] returns the found keys only; [incr] starts a missing
    counter at [initial_value].  What the client refuses by itself, before
    it contacts the service, is a value whose serialized form exceeds
    [MAX_VALUE_SIZE], and a negative [delta]. *)
Definition memcache_get (key ns : string) : M (option pyval) :=
  fun w => if memcache_up w then Ok (memcache w !! (ns, key)) w
           else Ok None w.

Definition found_in (ns : string) (mc : gmap (string * string) pyval)
    (keys : list string) : gmap string pyval :=
  foldr (fun k acc => match mc !! (ns, k) with
                      | Some v => <[k := v]> acc
                      | None => acc
                      end) ∅ keys.

Definition memcache_get_multi (keys : list string) (ns : string)
  : M (gmap string pyval) :=
  fun w => if memcache_up w then Ok (found_in ns (memcache w) keys) w
           else Ok ∅ w.

Definition memcache_set (key : string) (value : pyval) (ns : string) : M unit :=
  fun w => if MAX_VALUE_SIZE <? pickled_size ext value
           then Raise ValueError w
           else if memcache_up w
                then Ok tt (set_memcache (<[(ns, key) := value]> (memcache w)) w)
                else Ok tt w.

Definition store_all (ns : string) (mapping : gmap string pyval)
    (mc : gmap (string * string) pyval) : gmap (string * string) pyval :=
  map_fold (fun k v acc => <[(ns, k) := v]> acc) mc mapping.

(** Every value of the mapping serializes within the client's limit. *)
Definition all_storable (mapping : gmap string pyval) : bool :=
  forallb (fun kv => pickled_size ext (snd kv) <=? MAX_VALUE_SIZE)
          (map_to_list mapping).

Definition memcache_set_multi (mapping : gmap string pyval) (ns : string)
  : M unit :=
  fun w => if negb (all_storable mapping)
           then Raise ValueError w
           else if memcache_up w
                then Ok tt (set_memcache (store_all ns mapping (memcache w)) w)
                else Ok tt w.

Definition memcache_delete (key ns : string) : M unit :=
  fun w => if memcache_up w
           then Ok tt (set_memcache (delete (ns, key) (memcache w)) w)
           else Ok tt w.

Definition memcache_delete_multi (key_list : list string) (ns : string)
  : M unit :=
  fun w => if memcache_up w
           then Ok tt (set_memcache
                  (foldr (fun k acc => delete (ns, k) acc) (memcache w) key_list) w)
           else Ok tt w.

Definition memcache_incr (key : string) (delta : Z) (ns : string) : M unit :=
  fun w => if delta <? 0
           then Raise ValueError w
           else if memcache_up w
                then match memcache w !! (ns, key) with
                     | None => Ok tt (set_memcache (<[(ns, key) := PInt (0 + delta)]> (memcache w)) w)
                     | Some (PInt n) =>
                         Ok tt (set_memcache (<[(ns, key) := PInt (n + delta)]> (memcache w)) w)
                     | Some _ => Ok tt w
                     end
                else Ok tt w.

(** ** [MemcacheManager] *)

Definition _is_same_app_context_if_set : M bool :=
  fun w => match _READONLY_APP_CONTEXT w with
           | None => Ok true w
           | Some c => Ok (check_same c (request_context w)) w
           end.

(** Modelled from the spec: the owning context's [fs.begin_readonly],
    [fs.end_readonly] and [fs.is_in_readonly] place its durable resources
    into, and release them from, read-only mode. *)
Definition fs_begin_readonly (c : nat) : M unit :=
  modify (fun w => set_fs_readonly (fs_readonly w ∪ {[c]}) w).
Definition fs_end_readonly (c : nat) : M unit :=
  modify (fun w => set_fs_readonly (fs_readonly w ∖ {[c]}) w).
Definition fs_is_in_readonly (c : nat) : M bool :=
  gets (fun w => bool_decide (c ∈ fs_readonly w)).

Definition clear_readonly_cache : M unit :=
  modify (set_LOCAL_CACHE None) ;;;
  modify (set_IS_READONLY false) ;;;
  modify (set_REENTRY_COUNT 0) ;;;
  ctx <~ gets _READONLY_APP_CONTEXT ;;
  match ctx with
  | Some c => ro <~ fs_is_in_readonly c ;;
              if ro then fs_end_readonly c else pure tt
  | None => pure tt
  end ;;;
  modify (set_APP_CONTEXT None).

Definition _assert_true_clear_cache_and_raise_if_not
    (value_to_assert : bool) (msg : string) : M unit :=
  if negb value_to_assert
  then clear_readonly_cache ;;; raise (AssertionError msg)
  else pure tt.

Definition _fs_begin_readonly : M unit :=
  ctx <~ gets request_context ;;
  modify (set_APP_CONTEXT ctx) ;;;
  match ctx with
  | Some c => fs_begin_readonly c
  | None => pure tt
  end.

Definition _fs_end_readonly : M unit :=
  ctx <~ gets _READONLY_APP_CONTEXT ;;
  match ctx with
  | Some c => fs_end_readonly c
  | None => pure tt
  end ;;;
  modify (set_APP_CONTEXT None).

Definition begin_readonly : M unit :=
  n <~ gets _READONLY_REENTRY_COUNT ;;
  _assert_true_clear_cache_and_raise_if_not (0 <=? n) "Re-entry counter is < 0." ;;;
  same <~ _is_same_app_context_if_set ;;
  _assert_true_clear_cache_and_raise_if_not same "Unable to switch app_context." ;;;
  n <~ gets _READONLY_REENTRY_COUNT ;;
  (if n =? 0
   then modify (set_IS_READONLY true) ;;;
        modify (set_LOCAL_CACHE (Some ∅)) ;;;
        _fs_begin_readonly
   else pure tt) ;;;
  modify (fun w => set_REENTRY_COUNT (_READONLY_REENTRY_COUNT w + 1) w).

Definition end_readonly : M unit :=
  n <~ gets _READONLY_REENTRY_COUNT ;;
  _assert_true_clear_cache_and_raise_if_not (0 <? n) "Re-entry counter <= 0." ;;;
  same <~ _is_same_app_context_if_set ;;
  _assert_true_clear_cache_and_raise_if_not same "Unable to switch app_context." ;;;
  modify (fun w => set_REENTRY_COUNT (_READONLY_REENTRY_COUNT w - 1) w) ;;;
  n <~ gets _READONLY_REENTRY_COUNT ;;
  if n =? 0
  then _fs_end_readonly ;;;
       modify (set_IS_READONLY false) ;;;
       modify (set_LOCAL_CACHE None) ;;;
       modify (set_APP_CONTEXT None)
  else pure tt.

(** [_dict = cls._LOCAL_CACHE.get(namespace)], replaced by a fresh dict
    stored under [namespace] when it is missing or empty. *)
Definition local_dict (ns : string) : M (gmap string (option pyval)) :=
  fun w => match _LOCAL_CACHE w with
           | None => Raise AttributeError w
           | Some lc =>
               match lc !! ns with
               | Some d =>
                   if bool_decide (d = ∅)
                   then Ok ∅ (set_LOCAL_CACHE (Some (<[ns := ∅]> lc)) w)
                   else Ok d w
               | None => Ok ∅ (set_LOCAL_CACHE (Some (<[ns := ∅]> lc)) w)
               end
           end.

(** [_dict[key] = value] on the dict stored under [namespace]. *)
Definition local_dict_store (ns key : string) (value : option pyval) : M unit :=
  fun w => match _LOCAL_CACHE w with
           | None => Raise AttributeError w
           | Some lc =>
               Ok tt (set_LOCAL_CACHE
                        (Some (<[ns := <[key := value]> (default ∅ (lc !! ns))]> lc)) w)
           end.

Definition assert (b : bool) : M unit :=
  if b then pure tt else raise (AssertionError "").

Definition _local_cache_get (key ns : string) : M (bool * option pyval) :=
  ro <~ gets _IS_READONLY ;;
  if ro
  then same <~ _is_same_app_context_if_set ;;
       assert same ;;;
       d <~ local_dict ns ;;
       match d !! key with
       | Some value => count inc_CACHE_HIT_LOCAL ;;; pure (true, value)
       | None => count inc_CACHE_MISS_LOCAL ;;; pure (false, None)
       end
  else pure (false, None).

Definition _local_cache_put (key ns : string) (value : option pyval) : M unit :=
  ro <~ gets _IS_READONLY ;;
  if ro
  then same <~ _is_same_app_context_if_set ;;
       assert same ;;;
       local_dict ns ;;;
       local_dict_store ns key value ;;;
       count inc_CACHE_PUT_LOCAL
  else pure tt.

Fixpoint _local_cache_get_multi_loop (keys : list string) (ns : string)
    (values : list (option pyval)) : M (bool * list (option pyval)) :=
  match keys with
  | [] => pure (true, values)
  | key :: keys' =>
      r <~ _local_cache_get key ns ;;
      if fst r
      then _local_cache_get_multi_loop keys' ns (values ++ [snd r])
      else pure (false, [])
  end.

Definition _local_cache_get_multi (keys : list string) (ns : string)
  : M (bool * list (option pyval)) :=
  ro <~ gets _IS_READONLY ;;
  if ro
  then same <~ _is_same_app_context_if_set ;;
       assert same ;;;
       _local_cache_get_multi_loop keys ns []
  else pure (false, []).

Fixpoint put_each (items : list (string * pyval)) (ns : string) : M unit :=
  match items with
  | [] => pure tt
  | (key, value) :: items' =>
      _local_cache_put key ns (Some value) ;;; put_each items' ns
  end.

Definition _local_cache_put_multi (values : gmap string pyval) (ns : string)
  : M unit :=
  ro <~ gets _IS_READONLY ;;
  if ro
  then same <~ _is_same_app_context_if_set ;;
       assert same ;;;
       put_each (map_to_list values) ns
  else pure tt.

Definition get_namespace : M string := gets current_namespace.

Definition _get_namespace (namespace : option string) : M string :=
  match namespace with
  | Some ns => pure ns
  | None => get_namespace
  end.


(** What [get_multi] hands back: the dict of the backend, or the list the
    local snapshot path builds. *)
Inductive multi : Type :=
| MDict (found : gmap string pyval)
| MList (values : list (option pyval)).

Definition MemcacheManager_get (key : string) (namespace : option string)
  : M (option pyval) :=
  can <~ gets CAN_USE_MEMCACHE ;;
  if negb can then pure None
  else
    ns <~ _get_namespace namespace ;;
    r <~ _local_cache_get key ns ;;
    if fst r then pure (snd r)
    else
      value <~ memcache_get key ns ;;
      match value with
      | Some _ => count (inc_CACHE_HIT 1)
      | None => count inc_CACHE_MISS
      end ;;;
      _local_cache_put key ns value ;;;
      pure value.

(** The backend reports found keys only, so each reported value counts as
    a hit. *)
Definition MemcacheManager_get_multi (keys : list string)
    (namespace : option string) : M multi :=
  can <~ gets CAN_USE_MEMCACHE ;;
  if negb can then pure (MDict ∅)
  else
    ns <~ _get_namespace namespace ;;
    r <~ _local_cache_get_multi keys ns ;;
    if fst r then pure (MList (snd r))
    else
      values <~ memcache_get_multi keys ns ;;
      count (inc_CACHE_HIT (size values)) ;;;
      _local_cache_put_multi values ns ;;;
      pure (MDict values).

Definition MemcacheManager_set (key : string) (value : pyval)
    (namespace : option string) : M unit :=
  try_except
    (can <~ gets CAN_USE_MEMCACHE ;;
     if can
     then if MEMCACHE_MAX <? sizeof ext value
          then count inc_CACHE_PUT_TOO_BIG
          else count inc_CACHE_PUT ;;;
               ns <~ _get_namespace namespace ;;
               memcache_set key value ns ;;;
               _local_cache_put key ns (Some value)
     else pure tt)
    (pure tt).

Definition mapping_size (mapping : gmap string pyval) : Z :=
  foldr Z.add 0 ((fun kv => sizeof_key ext (fst kv) + sizeof ext (snd kv)) <$> map_to_list mapping).

(** The client takes the value: its serialized form is within
    [MAX_VALUE_SIZE]. *)
Definition storable (value : pyval) : Prop :=
  pickled_size ext value <= MAX_VALUE_SIZE.

(** [set] passes the value on and the client takes it. *)
Definition fits (value : pyval) : Prop :=
  sizeof ext value <= MEMCACHE_MAX /\ storable value.

(** [set_multi] passes the mapping on and the client takes it. *)
Definition multi_fits (mapping : gmap string pyval) : Prop :=
  mapping_size mapping <= MEMCACHE_MULTI_MAX /\ all_storable mapping = true.

Definition MemcacheManager_set_multi (mapping : gmap string pyval)
    (namespace : option string) : M unit :=
  try_except
    (can <~ gets CAN_USE_MEMCACHE ;;
     if can
     then if bool_decide (mapping = ∅)
          then pure tt
          else if MEMCACHE_MULTI_MAX <? mapping_size mapping
               then count inc_CACHE_PUT_TOO_BIG
               else count inc_CACHE_PUT ;;;
                    ns <~ _get_namespace namespace ;;
                    memcache_set_multi mapping ns ;;;
                    _local_cache_put_multi mapping ns
     else pure tt)
    (pure tt).

Definition MemcacheManager_delete (key : string) (namespace : option string)
  : M unit :=
  ro <~ gets _IS_READONLY ;;
  assert (negb ro) ;;;
  can <~ gets CAN_USE_MEMCACHE ;;
  if can
  then count (inc_CACHE_DELETE 1) ;;;
       ns <~ _get_namespace namespace ;;
       memcache_delete key ns
  else pure tt.

Definition MemcacheManager_delete_multi (key_list : list string)
    (namespace : option string) : M unit :=
  ro <~ gets _IS_READONLY ;;
  assert (negb ro) ;;;
  can <~ gets CAN_USE_MEMCACHE ;;
  if can
  then count (inc_CACHE_DELETE (length key_list)) ;;;
       ns <~ _get_namespace namespace ;;
       memcache_delete_multi key_list ns
  else pure tt.

Definition MemcacheManager_incr (key : string) (delta : Z)
    (namespace : option string) : M unit :=
  can <~ gets CAN_USE_MEMCACHE ;;
  if can
  then ns <~ _get_namespace namespace ;;
       memcache_incr key delta ns
  else pure tt.

(** ** The datastore *)

(** Modelled from the spec: the backing store contract of
    [google.appengine.ext.db]: get by id or by name, batched get, put and
    batched put (a new entity receives the next numeric id), delete, and a
    query that runs from a cursor to the end of the kind. *)
Fixpoint db_find (kind : string) (k : obj_id)
    (rows : list (string * obj_id * string)) : option entity :=
  match rows with
  | [] => None
  | row :: rows' =>
      if bool_decide (fst row = (kind, k))
      then Some (Entity (Some k) (snd row))
      else db_find kind k rows'
  end.

Definition db_get (kind : string) (keys : list obj_id)
  : M (list (option entity)) :=
  fun w => Ok ((fun k => db_find kind k (datastore w)) <$> keys)
              (set_db_gets (S (db_gets w)) w).

Definition get_by_id (kind : string) (n : Z) : M (option entity) :=
  fun w => Ok (db_find kind (IdInt n) (datastore w))
              (set_db_gets (S (db_gets w)) w).

Definition get_by_key_name (kind : string) (key : obj_id) : M (option entity) :=
  match key with
  | IdStr s => fun w => Ok (db_find kind (IdStr s) (datastore w))
                           (set_db_gets (S (db_gets w)) w)
  | IdInt _ => raise BadArgumentError
  end.

Fixpoint upsert (kind : string) (k : obj_id) (data : string)
    (rows : list (string * obj_id * string)) : list (string * obj_id * string) :=
  match rows with
  | [] => [(kind, k, data)]
  | row :: rows' =>
      if bool_decide (fst row = (kind, k))
      then (kind, k, data) :: rows'
      else row :: upsert kind k data rows'
  end.

(** Writing one entity: returns its complete key. *)
Definition write_entity (kind : string) (e : entity) : M obj_id :=
  fun w => match ekey e with
           | Some k => Ok k (set_datastore (upsert kind k (edata e) (datastore w)) w)
           | None =>
               let k := IdInt (next_id w) in
               Ok k (set_next_id (next_id w + 1)
                       (set_datastore (upsert kind k (edata e) (datastore w)) w))
           end.

Fixpoint write_entities (kind : string) (es : list entity) : M (list obj_id) :=
  match es with
  | [] => pure []
  | e :: es' =>
      k <~ write_entity kind e ;;
      ks <~ write_entities kind es' ;;
      pure (k :: ks)
  end.

Definition entity_put (kind : string) (e : entity) : M obj_id :=
  modify (fun w => set_db_puts (S (db_puts w)) w) ;;;
  write_entity kind e.

Definition db_put (kind : string) (es : list entity) : M (list obj_id) :=
  modify (fun w => set_db_puts (S (db_puts w)) w) ;;;
  write_entities kind es.

Definition entity_delete (kind : string) (e : entity) : M unit :=
  match ekey e with
  | Some k =>
      modify (fun w => set_datastore
                (filter (fun row => fst row ≠ (kind, k)) (datastore w)) w)
  | None => raise NotSavedError
  end.

Definition entity_key (e : entity) : M obj_id :=
  match ekey e with
  | Some k => pure k
  | None => raise NotSavedError
  end.

Definition rows_of_kind (kind : string) (rows : list (string * obj_id * string))
  : list entity :=
  (fun row => Entity (Some (snd (fst row))) (snd row)) <$>
  filter (fun row => fst (fst row) = kind) rows.

(** [query = cls.ENTITY.all().with_cursor(cursor); query.run()] *)
Definition query_run (kind : string) (cursor : nat) : M (list entity) :=
  fun w => Ok (drop cursor (rows_of_kind kind (datastore w)))
              (set_db_queries (S (db_queries w)) w).


(** ** [BaseJsonDao] *)

Inductive key_type : Type := EntityKeyTypeId | EntityKeyTypeName.

(** A post-load hook receives the DTO list and mutates the DTOs in place;
    it is given here by the contents it leaves in them, by position. *)
Definition hook : Type := list dto -> list dto.

(** The class attributes a concrete DAO supplies: [ENTITY.kind()],
    [ENTITY_KEY_TYPE] and, when the class has it, [POST_LOAD_HOOKS]. *)
Record dao : Type := Dao {
  kind : string;
  ENTITY_KEY_TYPE : key_type;
  POST_LOAD_HOOKS : option (list hook)
}.

Definition get_entity_by_key (cls : dao) (key : obj_id) : M (option entity) :=
  match ENTITY_KEY_TYPE cls with
  | EntityKeyTypeId =>
      match key with
      | IdInt n => get_by_id (kind cls) n
      | IdStr s => match py_int ext s with
                   | Some n => get_by_id (kind cls) n
                   | None => raise ValueError
                   end
      end
  | EntityKeyTypeName => get_by_key_name (kind cls) key
  end.

Definition new_entity (cls : dao) (key : option obj_id) : M entity :=
  match ENTITY_KEY_TYPE cls with
  | EntityKeyTypeId => pure (Entity None "")
  | EntityKeyTypeName =>
      match key with
      | None => pure (Entity None "")
      | Some (IdStr s) => pure (Entity (Some (IdStr s)) "")
      | Some (IdInt _) => raise BadArgumentError
      end
  end.

Definition _memcache_key (cls : dao) (obj : obj_id) : string :=
  "(entity:" +:+ kind cls +:+ ":" +:+ str_of_id obj +:+ ")".

Definition _memcache_all_key (cls : dao) : string :=
  "(entity-get-all:" +:+ kind cls +:+ ")".

(** The objects of [old] after a hook left the contents [new] in them. *)
Fixpoint overlay (old new : list dto) : list dto :=
  match old, new with
  | [], _ => []
  | _ :: _, [] => old
  | _ :: old', n :: new' => n :: overlay old' new'
  end.

Fixpoint run_hooks (i : nat) (hooks : list hook) (dto_list : list dto)
  : M (list dto) :=
  match hooks with
  | [] => pure dto_list
  | h :: hooks' =>
      modify (fun w => set_hook_log (hook_log w ++ [(i, dto_list)]) w) ;;;
      run_hooks (S i) hooks' (overlay dto_list (h dto_list))
  end.

(** Returns the contents of the DTOs of [dto_list] after the hooks ran. *)
Definition _maybe_apply_post_hooks (cls : dao) (dto_list : list dto)
  : M (list dto) :=
  match POST_LOAD_HOOKS cls with
  | Some hooks => run_hooks 0 hooks dto_list
  | None => pure dto_list
  end.

(** One pass of the [while any_records] loop per unit of fuel. *)
Fixpoint get_all_iter_loop (fuel : nat) (cls : dao) (prev_cursor : nat)
    (yielded : list dto) : M (list dto) :=
  match fuel with
  | O => pure yielded
  | S fuel' =>
      page <~ query_run (kind cls) prev_cursor ;;
      let dtos := (fun e => DTO (id_or_name <$> ekey e) (loads ext (edata e))) <$> page in
      match page with
      | [] => pure (yielded ++ dtos)
      | _ :: _ =>
          get_all_iter_loop fuel' cls (prev_cursor + length page)%nat
                            (yielded ++ dtos)
      end
  end.

(** A query runs to the end of the kind, so the second pass is empty. *)
Definition get_all_iter (cls : dao) : M (list dto) :=
  get_all_iter_loop 2 cls 0%nat [].

(** [{dto.id: dto for dto in ...}]: a later DTO replaces an earlier one
    with the same id. *)
Definition dict_by_id (dtos : list dto) : gmap obj_id dto :=
  foldl (fun acc d => match dto_id d with
                      | Some i => <[i := d]> acc
                      | None => acc
                      end) ∅ dtos.

Definition get_all_mapped (cls : dao) : M pyval :=
  entities <~ MemcacheManager_get (_memcache_all_key cls) None ;;
  let from_datastore :=
    dtos <~ get_all_iter cls ;;
    let result := dict_by_id dtos in
    let result_to_cache :=
      if bool_decide (result = ∅) then NO_OBJECT else PDict result in
    MemcacheManager_set (_memcache_all_key cls) result_to_cache None ;;;
    pure (PDict result) in
  match entities with
  | Some v => if negb (eq_NO_OBJECT v) then pure v else from_datastore
  | None => from_datastore
  end.

Definition get_all (cls : dao) : M (list dto) :=
  mapped <~ get_all_mapped cls ;;
  match mapped with
  | PDict items => pure (snd <$> map_to_list items)
  | PNoObject => pure []
  | _ => raise AttributeError
  end.

Definition _load_entity (cls : dao) (obj : option obj_id) : M (option pyval) :=
  match obj with
  | Some i =>
      if negb (truthy_id obj) then pure None
      else
        let memcache_key := _memcache_key cls i in
        entity <~ MemcacheManager_get memcache_key None ;;
        if from_option eq_NO_OBJECT false entity then pure None
        else if negb (truthy entity)
             then
               found <~ get_entity_by_key cls i ;;
               match found with
               | Some e => MemcacheManager_set memcache_key (PEntity e) None ;;;
                           pure (Some (PEntity e))
               | None => MemcacheManager_set memcache_key NO_OBJECT None ;;;
                         pure None
               end
             else pure entity
  | None => pure None
  end.

(** [entity.data] *)
Definition data_of (v : pyval) : M string :=
  match v with
  | PEntity e => pure (edata e)
  | _ => raise AttributeError
  end.

Definition load (cls : dao) (obj : option obj_id) : M (option dto) :=
  entity <~ _load_entity cls obj ;;
  if truthy entity
  then match entity with
       | Some v =>
           data <~ data_of v ;;
           let d := DTO obj (loads ext data) in
           after <~ _maybe_apply_post_hooks cls [d] ;;
           pure (Some (hd d after))
       | None => pure None
       end
  else pure None.


(** [memcache_key not in memcache_entities].  On the list of the local
    snapshot path the test compares the key with the cached values, none of
    which is a [str]. *)
Definition key_missing (memcache_entities : multi) (key : string) : bool :=
  match memcache_entities with
  | MDict found => match found !! key with
                   | Some _ => false
                   | None => true
                   end
  | MList _ => true
  end.

(** [memcache_entities[memcache_key]] *)
Definition subscript (memcache_entities : multi) (key : string) : M pyval :=
  match memcache_entities with
  | MDict found => match found !! key with
                   | Some v => pure v
                   | None => raise KeyError
                   end
  | MList _ => raise TypeError
  end.

(** [dict(zip(keys, values))] *)
Definition py_dict {V} (items : list (obj_id * V)) : gmap obj_id V :=
  foldl (fun acc kv => <[fst kv := snd kv]> acc) ∅ items.

(** One position of [ret]: a DTO built from a datastore entity (also in
    [dtos_for_post_hooks]), a DTO built from a cached entity, or [None]. *)
Inductive slot : Type :=
| FromStore (d : dto)
| FromCache (d : dto)
| Missing.

Fixpoint weave (both_keys : list (obj_id * string))
    (datastore_entities : gmap obj_id (option entity))
    (memcache_entities : multi)
    (ret : list slot) (memcache_update : gmap string pyval)
    (dtos_for_post_hooks : list dto)
  : M (list slot * gmap string pyval * list dto) :=
  match both_keys with
  | [] => pure (ret, memcache_update, dtos_for_post_hooks)
  | (obj, memcache_key) :: rest =>
      match datastore_entities !! obj ≫= (fun e => e) with
      | Some entity =>
          let d := DTO (Some obj) (loads ext (edata entity)) in
          weave rest datastore_entities memcache_entities
                (ret ++ [FromStore d])
                (<[memcache_key := PEntity entity]> memcache_update)
                (dtos_for_post_hooks ++ [d])
      | None =>
          if key_missing memcache_entities memcache_key
          then weave rest datastore_entities memcache_entities
                     (ret ++ [Missing])
                     (<[memcache_key := NO_OBJECT]> memcache_update)
                     dtos_for_post_hooks
          else
            entity <~ subscript memcache_entities memcache_key ;;
            if eq_NO_OBJECT entity
            then weave rest datastore_entities memcache_entities
                       (ret ++ [Missing]) memcache_update dtos_for_post_hooks
            else
              data <~ data_of entity ;;
              weave rest datastore_entities memcache_entities
                    (ret ++ [FromCache (DTO (Some obj) (loads ext data))])
                    memcache_update dtos_for_post_hooks
      end
  end.

(** [ret] as the caller sees it once the hooks mutated the DTOs of
    [dtos_for_post_hooks] in place. *)
Fixpoint fill (ret : list slot) (after : list dto) : list (option dto) :=
  match ret with
  | [] => []
  | Missing :: ret' => None :: fill ret' after
  | FromCache d :: ret' => Some d :: fill ret' after
  | FromStore d :: ret' =>
      match after with
      | d' :: after' => Some d' :: fill ret' after'
      | [] => Some d :: fill ret' []
      end
  end.

Definition bulk_load (cls : dao) (obj_id_list : list obj_id)
  : M (list (option dto)) :=
  let memcache_keys := _memcache_key cls <$> obj_id_list in
  memcache_entities <~ MemcacheManager_get_multi memcache_keys None ;;
  let both_keys := zip obj_id_list memcache_keys in
  let datastore_keys :=
    fst <$> filter (fun p => key_missing memcache_entities (snd p) = true)
                   both_keys in
  datastore_entities <~
    match datastore_keys with
    | [] => pure ∅
    | _ :: _ =>
        fetched <~ db_get (kind cls) datastore_keys ;;
        pure (py_dict (zip datastore_keys fetched))
    end ;;
  woven <~ weave both_keys datastore_entities memcache_entities [] ∅ [] ;;
  after <~ _maybe_apply_post_hooks cls (snd woven) ;;
  (if bool_decide (datastore_entities = ∅)
   then pure tt
   else MemcacheManager_set_multi (snd (fst woven)) None) ;;;
  pure (fill (fst (fst woven)) after).

Definition _create_if_necessary (cls : dao) (d : dto) : M entity :=
  entity <~ _load_entity cls (dto_id d) ;;
  e <~ (if negb (truthy entity)
        then new_entity cls (dto_id d)
        else match entity with
             | Some (PEntity e) => pure e
             | _ => raise AttributeError
             end) ;;
  pure (Entity (ekey e) (dumps ext (dto_dict d))).

Definition before_put (d : dto) (e : entity) : M unit := pure tt.

Definition save (cls : dao) (d : dto) : M obj_id :=
  entity <~ _create_if_necessary cls d ;;
  before_put d entity ;;;
  key <~ entity_put (kind cls) entity ;;
  let entity := Entity (Some key) (edata entity) in
  MemcacheManager_delete (_memcache_all_key cls) None ;;;
  k <~ entity_key entity ;;
  MemcacheManager_set (_memcache_key cls (id_or_name k)) (PEntity entity) None ;;;
  k <~ entity_key entity ;;
  pure (id_or_name k).

Fixpoint save_all_build (cls : dao) (dtos : list dto) (entities : list entity)
  : M (list entity) :=
  match dtos with
  | [] => pure entities
  | d :: dtos' =>
      entity <~ _create_if_necessary cls d ;;
      before_put d entity ;;;
      save_all_build cls dtos' (entities ++ [entity])
  end.

Fixpoint save_all_publish (cls : dao) (pairs : list (obj_id * entity)) : M unit :=
  match pairs with
  | [] => pure tt
  | (key, entity) :: pairs' =>
      MemcacheManager_set (_memcache_key cls (id_or_name key))
                          (PEntity (Entity (Some key) (edata entity))) None ;;;
      save_all_publish cls pairs'
  end.

Definition save_all (cls : dao) (dtos : list dto) : M (list (option obj_id)) :=
  entities <~ save_all_build cls dtos [] ;;
  keys <~ db_put (kind cls) entities ;;
  MemcacheManager_delete (_memcache_all_key cls) None ;;;
  save_all_publish cls (zip keys entities) ;;;
  pure (key_id <$> keys).

Definition BaseJsonDao_delete (cls : dao) (d : dto) : M unit :=
  entity <~ _load_entity cls (dto_id d) ;;
  match entity with
  | Some (PEntity e) =>
      entity_delete (kind cls) e ;;;
      MemcacheManager_delete (_memcache_all_key cls) None ;;;
      k <~ entity_key e ;;
      MemcacheManager_delete (_memcache_key cls (id_or_name k)) None
  | _ => raise AttributeError
  end.


(** ** Other functions of the module *)




(** [BaseJsonDao.clone]: the payload is a value here, so [copy.deepcopy]
    returns it. *)
Definition clone (d : dto) : dto := DTO None (dto_dict d).


(** [LabelEntity.put] and [LabelEntity.delete], over [LabelEntity.kind()]. *)
Definition LabelEntity_MEMCACHE_KEY : string := "labels".

Definition LabelEntity_put (kind : string) (e : entity) : M obj_id :=
  result <~ entity_put kind e ;;
  MemcacheManager_delete LabelEntity_MEMCACHE_KEY None ;;;
  pure result.

Definition LabelEntity_delete (kind : string) (e : entity) : M unit :=
  entity_delete kind e ;;;
  MemcacheManager_delete LabelEntity_MEMCACHE_KEY None.

(** [LabelManager._preload] and [LabelManager._get_all], over the
    instance attribute [_key_to_label]; both return its new value. *)
Definition LabelManager_preload (cls : dao) : M (gmap obj_id dto) :=
  rows <~ get_all_iter cls ;;
  pure (dict_by_id rows).

Definition LabelManager_get_all (cls : dao)
    (_key_to_label : option (gmap obj_id dto))
  : M (option (gmap obj_id dto) * list dto) :=
  match _key_to_label with
  | None =>
      loaded <~ LabelManager_preload cls ;;
      pure (Some loaded, snd <$> map_to_list loaded)
  | Some loaded => pure (Some loaded, snd <$> map_to_list loaded)
  end.

(** [sep in s] for a one-character separator. *)
Fixpoint contains (sep : Ascii.ascii) (s : string) : bool :=
  match s with
  | EmptyString => false
  | String c s' => if Ascii.eqb c sep then true else contains sep s'
  end.

(** [s.split(sep, 1)] when [sep] occurs in [s]: the text before its first
    occurrence and the text after it. *)
Fixpoint split_once (sep : Ascii.ascii) (s : string) : option (string * string) :=
  match s with
  | EmptyString => None
  | String c s' =>
      if Ascii.eqb c sep then Some (EmptyString, s')
      else match split_once sep s' with
           | Some (before, after) => Some (String c before, after)
           | None => None
           end
  end.

(** Python truth value of an optional string. *)
Definition truthy_str (s : option string) : bool :=
  match s with
  | None => false
  | Some s => negb (String.eqb s "")
  end.

(** [ContentChunkDAO.make_uid] *)
Definition make_uid (type_id resource_id : option string)
  : exn + option string :=
  match type_id, resource_id with
  | None, None => inr None
  | _, _ =>
      if truthy_str type_id && truthy_str resource_id
         && negb (contains ":"%char (default "" type_id))
      then inr (Some (default "" type_id +:+ ":" +:+ default "" resource_id))
      else inl (AssertionError "")
  end.

(** [ContentChunkDAO._split_uid] *)
Definition _split_uid (uid : option string)
  : exn + (option string * option string) :=
  match uid with
  | None => inr (None, None)
  | Some u =>
      match split_once ":"%char u with
      | None => inl (AssertionError "")
      | Some (type_id, resource_id) =>
          if truthy_str (Some type_id) && truthy_str (Some resource_id)
          then inr (Some type_id, Some resource_id)
          else inl (AssertionError "")
      end
  end.

(** [StudentPropertyEntity.create_key], and the key name that
    [StudentPropertyEntity.safe_key] builds from the name of [db_key]. *)
Definition create_key (student_id property_name : string) : string :=
  student_id +:+ "-" +:+ property_name.

Definition safe_key (db_key_name : string) (transform_fn : string -> string)
  : exn + string :=
  match split_once "-"%char db_key_name with
  | Some (user_id, name) => inr (transform_fn user_id +:+ "-" +:+ name)
  | None => inl ValueError
  end.

(** ** The read-only snapshot session *)

(** [local_map] is non-null iff [active]; the reentry count is not
    negative; the session is inactive exactly at count 0. *)
Definition snapshot_inv (w : world) : Prop :=
  (is_Some (_LOCAL_CACHE w) <-> _IS_READONLY w = true) /\
  0 <= _READONLY_REENTRY_COUNT w /\
  (_IS_READONLY w = false <-> _READONLY_REENTRY_COUNT w = 0).

(** The class attributes as the class body sets them. *)
Definition snapshot_initial (w : world) : Prop :=
  _LOCAL_CACHE w = None /\ _IS_READONLY w = false /\
  _READONLY_REENTRY_COUNT w = 0 /\ _READONLY_APP_CONTEXT w = None.

(** No residual snapshot state. *)
Definition snapshot_cleared (w : world) : Prop :=
  _LOCAL_CACHE w = None /\ _IS_READONLY w = false /\
  _READONLY_REENTRY_COUNT w = 0 /\ _READONLY_APP_CONTEXT w = None.

(** A call on the snapshot life cycle; [NewRequest] is the environment
    moving on to a request of another (or no) application context. *)
Inductive call : Type :=
| Begin
| Finish
| Clear
| NewRequest (ctx : option nat).

Definition run_call (c : call) : M unit :=
  match c with
  | Begin => begin_readonly
  | Finish => end_readonly
  | Clear => clear_readonly_cache
  | NewRequest ctx => modify (set_request_context ctx)
  end.

(** The calls in order; a call that raises leaves its world to the next. *)
Definition run_calls (cs : list call) (w : world) : world :=
  foldl (fun w c => world_of (run_call c w)) w cs.

(** The calls in order, the first one that raises ending the run. *)
Fixpoint run_all (cs : list call) : M unit :=
  match cs with
  | [] => pure tt
  | c :: cs' => run_call c ;;; run_all cs'
  end.


(** ** Reading the cache and the datastore off a world *)

(** The slot of the distributed cache that a call without an explicit
    namespace addresses. *)
Definition cached (w : world) (key : string) : option pyval :=
  memcache w !! (current_namespace w, key).

(** The entry of the local snapshot map for [key], when there is one. *)
Definition local_entry (w : world) (key : string) : option (option pyval) :=
  match _LOCAL_CACHE w with
  | Some lc => match lc !! current_namespace w with
               | Some d => d !! key
               | None => None
               end
  | None => None
  end.

(** What the backend answers for the slot: nothing during an outage. *)
Definition backend_view (w : world) (key : string) : option pyval :=
  if memcache_up w then cached w key else None.

(** What the facade answers for [key]: nothing when caching is disabled,
    the local snapshot entry when a snapshot is active and has one, the
    answer of the distributed cache otherwise. *)
Definition cache_view (w : world) (key : string) : option pyval :=
  if negb (CAN_USE_MEMCACHE w) then None
  else if _IS_READONLY w
       then match local_entry w key with
            | Some value => value
            | None => backend_view w key
            end
       else backend_view w key.

(** Caching enabled, the backend reachable, no snapshot active. *)
Definition live (w : world) : Prop :=
  CAN_USE_MEMCACHE w = true /\ memcache_up w = true /\ _IS_READONLY w = false.

(** A real record of [obj] is cached, or stored. *)
Definition in_cache (cls : dao) (w : world) (obj : obj_id) : Prop :=
  exists e, cached w (_memcache_key cls obj) = Some (PEntity e).

(** The backing record the key strategy of [cls] finds for an id:
    [get_by_id(int(key))] or [get_by_key_name(key)]. *)
Definition record_of (cls : dao) (w : world) (obj : obj_id) : option entity :=
  match ENTITY_KEY_TYPE cls, obj with
  | EntityKeyTypeId, IdInt n => db_find (kind cls) (IdInt n) (datastore w)
  | EntityKeyTypeId, IdStr s =>
      match py_int ext s with
      | Some n => db_find (kind cls) (IdInt n) (datastore w)
      | None => None
      end
  | EntityKeyTypeName, IdStr s => db_find (kind cls) (IdStr s) (datastore w)
  | EntityKeyTypeName, IdInt _ => None
  end.

(** The backing store has a record for the id, under the key strategy of
    [cls]. *)
Definition in_store (cls : dao) (w : world) (obj : obj_id) : Prop :=
  is_Some (record_of cls w obj).

(** What a [delete] that cannot load its record leaves: no cache deletion
    counted, the datastore untouched, and the distributed cache as it was
    except, at most, for the sentinel that the failed lookup wrote under
    the key of the record it looked up. *)
Definition no_cleanup (cls : dao) (d : dto) (w w' : world) : Prop :=
  (memcache w' = memcache w \/
   exists obj, dto_id d = Some obj /\
     memcache w'
     = <[(current_namespace w, _memcache_key cls obj) := NO_OBJECT]>
         (memcache w)) /\
  CACHE_DELETE (perf w') = CACHE_DELETE (perf w) /\
  datastore w' = datastore w.

(** The hook calls [run_hooks] logs and the contents it leaves. *)
Fixpoint hook_calls (i : nat) (hooks : list hook) (dto_list : list dto)
  : list (nat * list dto) :=
  match hooks with
  | [] => []
  | h :: hooks' =>
      (i, dto_list) :: hook_calls (S i) hooks' (overlay dto_list (h dto_list))
  end.

Fixpoint hooks_after (hooks : list hook) (dto_list : list dto) : list dto :=
  match hooks with
  | [] => dto_list
  | h :: hooks' => hooks_after hooks' (overlay dto_list (h dto_list))
  end.

(** The position [bulk_load] computes for one id, from the cached value
    under its key and the datastore. *)
Definition slot_of (cls : dao) (w : world) (obj : obj_id) : slot :=
  match cached w (_memcache_key cls obj) with
  | Some (PEntity e) => FromCache (DTO (Some obj) (loads ext (edata e)))
  | Some _ => Missing
  | None =>
      match db_find (kind cls) obj (datastore w) with
      | Some e => FromStore (DTO (Some obj) (loads ext (edata e)))
      | None => Missing
      end
  end.

(** The cache update [bulk_load] commits: every id whose key the cache
    lacks, with its datastore entity or the sentinel. *)
Definition update_of (cls : dao) (w : world) (ids : list obj_id)
    (acc : gmap string pyval) : gmap string pyval :=
  foldl (fun acc obj =>
           match cached w (_memcache_key cls obj) with
           | Some _ => acc
           | None =>
               match db_find (kind cls) obj (datastore w) with
               | Some e => <[_memcache_key cls obj := PEntity e]> acc
               | None => <[_memcache_key cls obj := NO_OBJECT]> acc
               end
           end) acc ids.

(** Everything but the cache contents, the local snapshot map and the
    counters other than [CACHE_DELETE] is as before. *)
Definition same_services (w w' : world) : Prop :=
  datastore w' = datastore w /\ next_id w' = next_id w /\
  db_gets w' = db_gets w /\ db_queries w' = db_queries w /\
  db_puts w' = db_puts w /\ hook_log w' = hook_log w /\
  CAN_USE_MEMCACHE w' = CAN_USE_MEMCACHE w /\
  memcache_up w' = memcache_up w /\
  current_namespace w' = current_namespace w /\
  request_context w' = request_context w /\
  _IS_READONLY w' = _IS_READONLY w /\
  _READONLY_APP_CONTEXT w' = _READONLY_APP_CONTEXT w /\
  CACHE_DELETE (perf w') = CACHE_DELETE (perf w).

(** When [delete] cannot load the backing record of a DTO: its id is
    unset, the cache facade answers a value equal to the sentinel for it,
    or the cache facade answers nothing for it and the key strategy finds
    no record in the datastore. *)
Definition unloadable (cls : dao) (w : world) (d : dto) : Prop :=
  truthy_id (dto_id d) = false \/
  (exists obj v, dto_id d = Some obj /\
     cache_view w (_memcache_key cls obj) = Some v /\ eq_NO_OBJECT v = true) \/
  (exists obj, dto_id d = Some obj /\
     cache_view w (_memcache_key cls obj) = None /\
     record_of cls w obj = None).

(** The DTOs [get_all_iter] yields for the rows of a kind. *)
Definition dtos_of_rows (rows : list entity) : list dto :=
  (fun e => DTO (id_or_name <$> ekey e) (loads ext (edata e))) <$> rows.

(** The answer of [_is_same_app_context_if_set]. *)
Definition same_context (w : world) : bool :=
  match _READONLY_APP_CONTEXT w with
  | None => true
  | Some c => check_same c (request_context w)
  end.

(** The DTOs of the [FromStore] positions, in order: the list the hooks
    receive. *)
Fixpoint stored_dtos (slots : list slot) : list dto :=
  match slots with
  | [] => []
  | FromStore d :: slots' => d :: stored_dtos slots'
  | _ :: slots' => stored_dtos slots'
  end.

(** The contents the hooks of [cls] leave in a DTO list. *)
Definition hooked (cls : dao) (dto_list : list dto) : list dto :=
  match POST_LOAD_HOOKS cls with
  | Some hooks => hooks_after hooks dto_list
  | None => dto_list
  end.

(** The datastore has a row under [db.Key.from_path(kind, obj)], the key
    [bulk_load] asks for: the id as it is given, whatever the key strategy
    of the class. *)
Definition raw_stored (cls : dao) (w : world) (obj : obj_id) : Prop :=
  is_Some (db_find (kind cls) obj (datastore w)).

(** The cache tells the truth about the key of an id: under it the cache
    holds a record or a value equal to the sentinel, the latter only when
    the datastore has no row under that key. *)
Definition coherent (cls : dao) (w : world) (obj : obj_id) : Prop :=
  forall v, cached w (_memcache_key cls obj) = Some v ->
    (exists e, v = PEntity e) \/
    (eq_NO_OBJECT v = true /\ ~ raw_stored cls w obj).

(** The ids whose key the cache lacks: those [bulk_load] fetches. *)
Definition missing_ids (cls : dao) (w : world) (ids : list obj_id)
  : list obj_id :=
  filter (fun obj => ~ is_Some (cached w (_memcache_key cls obj))) ids.


(** Everything but the cache, its counters and the count of datastore
    reads is as before. *)
Definition same_store (w w' : world) : Prop :=
  datastore w' = datastore w /\ next_id w' = next_id w /\
  db_queries w' = db_queries w /\ db_puts w' = db_puts w /\
  hook_log w' = hook_log w /\
  CAN_USE_MEMCACHE w' = CAN_USE_MEMCACHE w /\
  memcache_up w' = memcache_up w /\
  current_namespace w' = current_namespace w /\
  _IS_READONLY w' = _IS_READONLY w.

(** No two rows of the datastore have the same kind and key. *)
Definition unique_keys (rows : list (string * obj_id * string)) : Prop :=
  NoDup (fst <$> rows).

End Model.

Arguments Ok {json A} a w.
Arguments Raise {json A} e w.

Notation "x <~ m ;; k" := (bind m (fun x => k))
  (at level 100, m at next level, right associativity).
Notation "m ;;; k" := (bind m (fun _ => k))
  (at level 100, right associativity).

(** ** A concrete instance, for closed examples *)

(** [int(s)] on an optional sign followed by decimal digits; any other
    string is refused. *)
Fixpoint digits_value (s : string) (acc : Z) : option Z :=
  match s with
  | EmptyString => Some acc
  | String c s' =>
      let n := Z.of_nat (Ascii.nat_of_ascii c) - 48 in
      if (0 <=? n) && (n <=? 9) then digits_value s' (10 * acc + n) else None
  end.

Definition int_of_string (s : string) : option Z :=
  match s with
  | EmptyString => None
  | String "-" (String c s') => Z.opp <$> digits_value (String c s') 0
  | String "+" (String c s') => digits_value (String c s') 0
  | _ => digits_value s 0
  end.

(** The number of characters of a string. *)
Fixpoint zlength (s : string) (acc : Z) : Z :=
  match s with
  | EmptyString => acc
  | String _ s' => zlength s' (acc + 1)
  end.

(** A string of [n] characters. *)
Fixpoint filled (n : nat) (acc : string) : string :=
  match n with
  | O => acc
  | S n' => filled n' (String "x" acc)
  end.

(** An instance of the library functions: JSON text as its own payload,
    the object sizes of CPython 2.7 for [sys.getsizeof] (an entity is an
    object whose data lives elsewhere), and a serialized form that holds
    the data of an entity. *)
Definition ex_ext : @externals string :=
  Externals (fun s => s) (fun j => j) int_of_string
            (fun v => match v with
                      | PNoObject | PDict _ => 280
                      | PEntity _ => 64
                      | PInt _ => 24
                      end)
            (fun _ => 40)
            (fun v => match v with
                      | PNoObject => 6
                      | PDict items => 6 + 100 * Z.of_nat (size items)
                      | PEntity e => 100 + zlength (edata e) 0
                      | PInt _ => 10
                      end)
            eq_refl.

Definition ex_world : @world string :=
  World None false 0 None true "ns" None ∅ true ∅
        (Counters 0 0 0 0 0 0 0 0) [] 1 0 0 0 [].

Definition ex_dao : @dao string := Dao "Question" EntityKeyTypeId (Some []).

(** The same kind with one registered hook, and a kind keyed by name. *)
Definition ex_dao_hooked : @dao string :=
  Dao "Question" EntityKeyTypeId (Some [fun dto_list => dto_list]).

Definition ex_dao_named : @dao string :=
  Dao "StudentPreferences" EntityKeyTypeName None.

Definition ex_entity : @entity := Entity (Some (IdInt 1)) "{x:1}".

(** One stored question, nothing cached. *)
Definition ex_world_stored : @world string :=
  set_datastore [("Question", IdInt 1, "{x:1}")] ex_world.

(** The question stored, and an empty dict that is not the sentinel
    cached under its key. *)
Definition ex_world_empty_dict : @world string :=
  set_memcache {[ ("ns", _memcache_key ex_dao (IdInt 1)) := PDict ∅ ]}
               ex_world_stored.

(** The question stored and its entity cached. *)
Definition ex_world_cached : @world string :=
  set_memcache {[ ("ns", _memcache_key ex_dao (IdInt 1)) := PEntity ex_entity ]}
               ex_world_stored.


(** An entity whose data is two million characters long. *)
Definition ex_big_entity : @entity :=
  Entity (Some (IdInt 1)) (filled (Z.to_nat 2000000) "").

(** No question stored, but an entity of question 1 left in the cache
    together with an aggregate entry of the kind. *)
Definition ex_world_stale : @world string :=
  set_memcache
    {[ ("ns", _memcache_key ex_dao (IdInt 1)) := PEntity ex_entity;
       ("ns", _memcache_all_key ex_dao)
         := PDict {[ IdInt 1 := DTO (Some (IdInt 1)) "{x:1}" ]} ]}
    ex_world.


(** Caching switched off. *)
Definition ex_world_off : @world string :=
  World None false 0 None false "ns" None ∅ true ∅
        (Counters 0 0 0 0 0 0 0 0) [] 1 0 0 0 [].

(** A snapshot at depth 1 that context 1 owns, seen from context 2. *)
Definition ex_world_foreign : @world string :=
  World (Some ∅) true 1 (Some 1%nat) true "ns" (Some 2%nat) {[ 1%nat ]} true ∅
        (Counters 0 0 0 0 0 0 0 0) [] 1 0 0 0 [].

(** A snapshot at depth 1 whose local map holds both requested keys, one
    of them as a cached miss. *)
Definition ex_local : gmap string (option (@pyval string)) :=
  {[ "k1" := Some (PInt 7); "k2" := None ]}.

Definition ex_world_snapshot : @world string :=
  World (Some {[ "ns" := ex_local ]}) true 1 None true "ns" None ∅ true ∅
        (Counters 0 0 0 0 0 0 0 0) [] 1 0 0 0 [].

(** * Properties *)

(** Unfolding of the monad, for proofs that run the code. *)
Ltac run_monad :=
  unfold _assert_true_clear_cache_and_raise_if_not, clear_readonly_cache,
    _fs_begin_readonly, _fs_end_readonly, fs_begin_readonly, fs_end_readonly,
    fs_is_in_readonly, _is_same_app_context_if_set, _get_namespace,
    get_namespace, assert, count, try_except, bind, pure, raise, gets, modify;
  cbn.

Ltac zbool :=
  repeat match goal with
  | H : (_ <=? _) = true |- _ => apply Z.leb_le in H
  | H : (_ <=? _) = false |- _ => apply Z.leb_gt in H
  | H : (_ <? _) = true |- _ => apply Z.ltb_lt in H
  | H : (_ <? _) = false |- _ => apply Z.ltb_ge in H
  | H : (_ =? _) = true |- _ => apply Z.eqb_eq in H
  | H : (_ =? _) = false |- _ => apply Z.eqb_neq in H
  end.

Section Properties.

Context {json : Type} (ext : @externals json).
Implicit Types (w : @world json) (cls : @dao json).

Lemma snapshot_inv_clear (w : @world json) :
  snapshot_cleared (world_of (clear_readonly_cache w)).
Proof.
  destruct w as [lc ro n ctx can ns rq fs up mc pf ds nid g q p hl].
  unfold snapshot_cleared. run_monad.
  destruct ctx as [c|]; cbn; [destruct (bool_decide (c ∈ fs)); cbn|]; done.
Qed.

Lemma snapshot_cleared_inv (w : @world json) : snapshot_cleared w -> snapshot_inv w.
Proof.
  intros (Hlc & Hro & Hn & _). unfold snapshot_inv.
  rewrite Hlc, Hro, Hn. repeat split; try done; try lia.
Qed.

Lemma snapshot_inv_step (c : call) (w : @world json) :
  snapshot_inv w -> snapshot_inv (world_of (run_call c w)).
Proof.
  intros Hinv.
  destruct w as [lc ro n ctx can ns rq fs up mc pf ds nid g q p hl].
  destruct Hinv as (Hlc & Hn & Hro); cbn in *.
  destruct c; cbn [run_call]; unfold begin_readonly, end_readonly;
    run_monad; repeat (case_match; simplify_eq/=); zbool;
    unfold snapshot_inv; cbn; subst;
    repeat split; try done; try lia; try tauto; eauto;
    try (intros Hf; apply Hro in Hf; lia).
Qed.

Lemma run_calls_snoc (cs : list call) (c : call) (w : @world json) :
  run_calls (cs ++ [c]) w = world_of (run_call c (run_calls cs w)).
Proof. unfold run_calls. by rewrite foldl_app. Qed.

Lemma snapshot_inv_reachable (cs : list call) (w0 : @world json) :
  snapshot_initial w0 -> snapshot_inv (run_calls cs w0).
Proof.
  intros Hinit. induction cs as [|c cs IH] using rev_ind.
  - apply snapshot_cleared_inv, Hinit.
  - rewrite run_calls_snoc. by apply snapshot_inv_step.
Qed.

(** [end_readonly] at count 0 (or below) raises and clears everything. *)
Lemma end_readonly_unmatched (w : @world json) :
  _READONLY_REENTRY_COUNT w <= 0 ->
  exists w', end_readonly w = Raise (AssertionError "Re-entry counter <= 0.") w'
             /\ snapshot_cleared w'.
Proof.
  intros Hn.
  pose proof (snapshot_inv_clear w) as Hc. revert Hc.
  destruct w as [lc ro n ctx can ns rq fs up mc pf ds nid g q p hl].
  cbn in Hn. unfold end_readonly. run_monad.
  destruct (0 <? n) eqn:Hlt; [apply Z.ltb_lt in Hlt; lia|]. cbn.
  destruct ctx as [c|]; cbn; [destruct (bool_decide (c ∈ fs)); cbn|];
    intros Hc; eexists; split; try reflexivity; exact Hc.
Qed.


(** A matched [end_readonly] from depth [n]: the count drops by one and
    the session is torn down exactly when it reaches 0. *)
Lemma end_readonly_matched (w : @world json) :
  snapshot_inv w ->
  0 < _READONLY_REENTRY_COUNT w ->
  same_context w = true ->
  exists w', end_readonly w = Ok tt w' /\
    _READONLY_REENTRY_COUNT w' = _READONLY_REENTRY_COUNT w - 1 /\
    (_READONLY_REENTRY_COUNT w = 1 -> snapshot_cleared w') /\
    (_READONLY_REENTRY_COUNT w <> 1 ->
       _IS_READONLY w' = true /\ _LOCAL_CACHE w' = _LOCAL_CACHE w).
Proof.
  destruct w as [lc ro n ctx can ns rq fs up mc pf ds nid g q p hl].
  intros (Hlc & Hn & Hro) Hpos; cbn in *.
  unfold same_context; cbn. intros Hsame.
  unfold end_readonly. run_monad.
  destruct (0 <? n) eqn:Hlt; [|zbool; lia]. cbn.
  destruct ctx as [c|]; simplify_eq/=.
  - rewrite Hsame. cbn. destruct (n - 1 =? 0) eqn:Hz; zbool; cbn;
      eexists; (split; [reflexivity|]); cbn; repeat split; try done; try lia.
    destruct ro; [done|]. destruct Hro as [Hro _]. specialize (Hro eq_refl). lia.
  - destruct (n - 1 =? 0) eqn:Hz; zbool; cbn;
      eexists; (split; [reflexivity|]); cbn; repeat split; try done; try lia.
    destruct ro; [done|]. destruct Hro as [Hro _]. specialize (Hro eq_refl). lia.
Qed.

(** A [begin_readonly] in the owning context: the count grows by one and
    the session is active. *)
Lemma begin_readonly_nested (w : @world json) :
  snapshot_inv w ->
  same_context w = true ->
  exists w', begin_readonly w = Ok tt w' /\
    _READONLY_REENTRY_COUNT w' = _READONLY_REENTRY_COUNT w + 1 /\
    _IS_READONLY w' = true /\ is_Some (_LOCAL_CACHE w').
Proof.
  destruct w as [lc ro n ctx can ns rq fs up mc pf ds nid g q p hl].
  intros (Hlc & Hn & Hro); cbn in *.
  unfold same_context; cbn. intros Hsame.
  unfold begin_readonly. run_monad.
  destruct (0 <=? n) eqn:Hle; [|zbool; lia]. cbn.
  assert (Hactive : n <> 0 -> ro = true /\ is_Some lc).
  { intros Hnz. destruct ro; [split; [done|by apply Hlc]|].
    destruct Hro as [Hro _]. specialize (Hro eq_refl). lia. }
  destruct ctx as [c|]; [rewrite Hsame|]; cbn;
    (destruct (n =? 0) eqn:Hz; zbool; cbn;
     [destruct rq; cbn; eexists; (split; [reflexivity|]); cbn;
      repeat split; eauto
     |eexists; (split; [reflexivity|]); cbn; repeat split;
      try done; by apply Hactive]).
Qed.

(** C2. The snapshot session keeps its invariant under every sequence of
    [begin_readonly], [end_readonly] and [clear_readonly_cache] calls (the
    request context free to change in between) from the initial class
    state: the local map is non-null iff the session is active, the
    reentry count is not negative, and the session is inactive exactly at
    count 0.  In every state so reached, a [begin_readonly] in the owning
    context adds one to the count, and an [end_readonly] in it takes one
    off and tears the session down exactly when the count reaches 0.
    [begin; begin; end] leaves the snapshot active at depth 1, and an
    [end_readonly] at depth 0, such as the third in
    [begin; begin; end; end; end], raises the assertion error and leaves
    no snapshot state behind. *)
Theorem snapshot_session_invariant (w0 : @world json) :
  snapshot_initial w0 ->
  (forall cs, snapshot_inv (run_calls cs w0)) /\
  (forall cs, let w := run_calls cs w0 in
     same_context w = true ->
     exists w', begin_readonly w = Ok tt w' /\
       _READONLY_REENTRY_COUNT w' = _READONLY_REENTRY_COUNT w + 1 /\
       _IS_READONLY w' = true /\ is_Some (_LOCAL_CACHE w')) /\
  (forall cs, let w := run_calls cs w0 in
     0 < _READONLY_REENTRY_COUNT w ->
     same_context w = true ->
     exists w', end_readonly w = Ok tt w' /\
       _READONLY_REENTRY_COUNT w' = _READONLY_REENTRY_COUNT w - 1 /\
       (_READONLY_REENTRY_COUNT w = 1 -> snapshot_cleared w') /\
       (_READONLY_REENTRY_COUNT w <> 1 ->
          _IS_READONLY w' = true /\ _LOCAL_CACHE w' = _LOCAL_CACHE w)) /\
  (let w := run_calls [Begin; Begin; Finish] w0 in
   _IS_READONLY w = true /\ is_Some (_LOCAL_CACHE w) /\
   _READONLY_REENTRY_COUNT w = 1) /\
  (exists w',
     end_readonly (run_calls [Begin; Begin; Finish; Finish] w0)
     = Raise (AssertionError "Re-entry counter <= 0.") w' /\
     snapshot_cleared w') /\
  (forall cs, _READONLY_REENTRY_COUNT (run_calls cs w0) = 0 ->
     exists w',
       end_readonly (run_calls cs w0)
       = Raise (AssertionError "Re-entry counter <= 0.") w' /\
       snapshot_cleared w').
Proof.
  intros Hinit. split; [|split; [|split; [|split; [|split]]]].
  - intros cs. by apply snapshot_inv_reachable.
  - intros cs w Hsame. apply begin_readonly_nested; [|done].
    by apply snapshot_inv_reachable.
  - intros cs w Hpos Hsame. apply end_readonly_matched; [|done|done].
    by apply snapshot_inv_reachable.
  - destruct w0 as [lc ro n ctx can ns rq fs up mc pf ds nid g q p hl].
    destruct Hinit as (? & ? & ? & ?); simplify_eq/=.
    unfold run_calls; cbn. unfold begin_readonly, end_readonly.
    destruct rq as [c|]; run_monad; simpl;
      repeat (rewrite Nat.eqb_refl; simpl); eauto.
  - apply end_readonly_unmatched.
    destruct w0 as [lc ro n ctx can ns rq fs up mc pf ds nid g q p hl].
    destruct Hinit as (? & ? & ? & ?); simplify_eq/=.
    unfold run_calls; cbn. unfold begin_readonly, end_readonly.
    destruct rq as [c|]; run_monad; simpl;
      repeat (rewrite Nat.eqb_refl; simpl); lia.
  - intros cs Hz. apply end_readonly_unmatched. lia.
Qed.

(** ** The cache facade *)

Ltac run_cache :=
  unfold MemcacheManager_get, MemcacheManager_set, MemcacheManager_set_multi,
    MemcacheManager_delete, MemcacheManager_delete_multi, MemcacheManager_incr,
    _local_cache_get, _local_cache_put, local_dict, local_dict_store,
    memcache_get, memcache_set, memcache_set_multi, memcache_delete,
    memcache_delete_multi, memcache_incr;
  run_monad.



Ltac bool_hyps :=
  repeat match goal with
  | H : bool_decide _ = true |- _ => apply bool_decide_eq_true in H
  | H : bool_decide _ = false |- _ => apply bool_decide_eq_false in H
  | H : negb _ = true |- _ => apply negb_true_iff in H
  | H : negb _ = false |- _ => apply negb_false_iff in H
  end.

(** [MemcacheManager.get] answers [cache_view] unless it raises, and never
    changes the distributed cache. *)
Lemma get_result w key :
  exists w',
    (MemcacheManager_get key None w = Ok (cache_view w key) w' \/
     exists e, MemcacheManager_get key None w = Raise e w') /\
    same_services w w' /\ memcache w' = memcache w.
Proof.
  destruct w as [lc ro n ctx can ns rq fs up mc pf ds nid g q p hl].
  unfold cache_view, backend_view, local_entry, cached. run_cache.
  repeat (case_match; simplify_eq/=); bool_hyps; simplify_map_eq;
    eexists; (split; [first [left; reflexivity | right; by eauto]|]);
    by repeat split.
Qed.

(** [MemcacheManager.set] never raises; it stores the value or leaves the
    distributed cache as it was. *)
Lemma set_result w key value :
  exists w',
    MemcacheManager_set ext key value None w = Ok tt w' /\
    same_services w w' /\
    (memcache w' = memcache w \/
     memcache w' = <[(current_namespace w, key) := value]> (memcache w)).
Proof.
  destruct w as [lc ro n ctx can ns rq fs up mc pf ds nid g q p hl].
  run_cache.
  repeat (case_match; simplify_eq/=);
    eexists; (split; [reflexivity|split; [by repeat split|]]); cbn; eauto.
Qed.


Lemma mapping_size_empty : mapping_size ext (∅ : gmap string (@pyval json)) = 0.
Proof. unfold mapping_size. by rewrite map_to_list_empty. Qed.



(** Where [sys.getsizeof] itself exceeds the ceiling the write is dropped
    and counted: with caching enabled, a [set] of a value whose object
    size exceeds [MEMCACHE_MAX], and a [set_multi] of a mapping whose
    summed key and value object sizes exceed [MEMCACHE_MULTI_MAX], return
    normally in the world that differs from the one before only by one
    more [CACHE_PUT_TOO_BIG]. *)
Lemma shallow_oversize_dropped w key value mapping namespace :
  CAN_USE_MEMCACHE w = true ->
  let w' := set_perf (inc_CACHE_PUT_TOO_BIG (perf w)) w in
  (MEMCACHE_MAX < sizeof ext value ->
     MemcacheManager_set ext key value namespace w = Ok tt w') /\
  (MEMCACHE_MULTI_MAX < mapping_size ext mapping ->
     MemcacheManager_set_multi ext mapping namespace w = Ok tt w') /\
  memcache w' = memcache w /\
  _LOCAL_CACHE w' = _LOCAL_CACHE w /\
  CACHE_PUT_TOO_BIG (perf w') = S (CACHE_PUT_TOO_BIG (perf w)) /\
  CACHE_PUT (perf w') = CACHE_PUT (perf w).
Proof.
  intros Hcan w'. subst w'.
  destruct w as [lc ro n ctx can ns rq fs up mc pf ds nid g q p hl].
  cbn in Hcan. subst can. repeat split; try done.
  - intros Hbig. run_cache.
    destruct (MEMCACHE_MAX <? sizeof ext value) eqn:Hlt; [done|].
    apply Z.ltb_ge in Hlt. lia.
  - intros Hbig. run_cache.
    case_bool_decide as Hempty.
    + subst mapping. rewrite mapping_size_empty in Hbig.
      unfold MEMCACHE_MULTI_MAX in Hbig. lia.
    + destruct (MEMCACHE_MULTI_MAX <? mapping_size ext mapping) eqn:Hlt;
        [done|]. apply Z.ltb_ge in Hlt. lia.
Qed.

(** C6 (what the code does). [set] compares the ceiling with
    [sys.getsizeof], the size of the object itself, not with the size of
    its serialized form.  With caching enabled, a value whose serialized
    size exceeds [MEMCACHE_MAX] while the object itself is within it is
    not counted as an oversize drop: [set] counts a [CACHE_PUT], hands the
    value to the client and swallows the client's refusal.  It returns
    normally in the world that differs from the one before only by one
    more [CACHE_PUT]; [CACHE_PUT_TOO_BIG] does not move. *)
Theorem oversize_serialized_value_not_counted w key value namespace :
  CAN_USE_MEMCACHE w = true ->
  sizeof ext value <= MEMCACHE_MAX ->
  MEMCACHE_MAX < pickled_size ext value ->
  let w' := set_perf (inc_CACHE_PUT (perf w)) w in
  MemcacheManager_set ext key value namespace w = Ok tt w' /\
  CACHE_PUT_TOO_BIG (perf w') = CACHE_PUT_TOO_BIG (perf w) /\
  CACHE_PUT (perf w') = S (CACHE_PUT (perf w)) /\
  memcache w' = memcache w.
Proof.
  intros Hcan Hsmall Hbig w'. subst w'.
  destruct w as [lc ro n ctx can ns rq fs up mc pf ds nid g q p hl].
  cbn in Hcan. subst can. split; [|by destruct pf].
  run_cache.
  destruct (MEMCACHE_MAX <? sizeof ext value) eqn:Hlt; [zbool; lia|].
  assert (Hbig' : (MAX_VALUE_SIZE <? pickled_size ext value) = true)
    by (apply Z.ltb_lt; unfold MAX_VALUE_SIZE, MEMCACHE_MAX in *; lia).
  destruct namespace; cbn; by rewrite Hbig'.
Qed.







(** ** Loading the backing record *)

Lemma get_entity_by_key_result cls w obj :
  get_entity_by_key ext cls obj w
  = Ok (record_of ext cls w obj) (set_db_gets (S (db_gets w)) w) \/
  (record_of ext cls w obj = None /\
   exists e, get_entity_by_key ext cls obj w = Raise e w).
Proof.
  unfold get_entity_by_key, record_of, get_by_id, get_by_key_name, raise.
  destruct (ENTITY_KEY_TYPE cls), obj as [n|s]; try destruct (py_int ext s);
    eauto.
Qed.

Lemma memcache_keys_distinct cls obj :
  _memcache_key cls obj <> _memcache_all_key cls.
Proof.
  unfold _memcache_key, _memcache_all_key. simpl. intros Heq.
  by repeat (injection Heq as Heq).
Qed.

Lemma no_cleanup_refl cls d w : no_cleanup cls d w w.
Proof. split; [by left|done]. Qed.

Lemma get_no_cleanup cls d w w' :
  same_services w w' -> memcache w' = memcache w -> no_cleanup cls d w w'.
Proof.
  unfold same_services. intros Hs Hm. destruct_and!.
  split; [by left|done].
Qed.

(** On an unloadable DTO [_load_entity] answers [None] or raises; on the
    way it removes nothing from the cache, and it leaves the aggregate
    entry as it is. *)
Lemma load_entity_unloadable cls w d :
  unloadable ext cls w d ->
  exists w',
    (_load_entity ext cls (dto_id d) w = Ok None w' \/
     exists e, _load_entity ext cls (dto_id d) w = Raise e w') /\
    no_cleanup cls d w w' /\
    cached w' (_memcache_all_key cls) = cached w (_memcache_all_key cls).
Proof.
  intros [Hid | [(obj & v & Hobj & Hview & Heq) | (obj & Hobj & Hview & Hrec)]].
  - exists w. split; [left|split; [apply no_cleanup_refl|done]].
    unfold _load_entity. destruct (dto_id d); [|done]. by rewrite Hid.
  - rewrite Hobj. unfold _load_entity.
    destruct (truthy_id (Some obj)) eqn:Hid; cbn [negb].
    2:{ exists w. split; [by left|split; [apply no_cleanup_refl|done]]. }
    destruct (get_result w (_memcache_key cls obj))
      as (w1 & [Hget | [e Hget]] & Hsv & Hmc); exists w1;
      (split; [|split; [by apply get_no_cleanup|]]).
    + left. unfold bind. rewrite Hget, Hview. cbn. by rewrite Heq.
    + unfold cached. rewrite Hmc. unfold same_services in Hsv.
      destruct_and!. congruence.
    + right. exists e. unfold bind. by rewrite Hget.
    + unfold cached. rewrite Hmc. unfold same_services in Hsv.
      destruct_and!. congruence.
  - rewrite Hobj.
    destruct (truthy_id (Some obj)) eqn:Hid.
    2:{ exists w. split; [left; unfold _load_entity; by rewrite Hid|].
        split; [apply no_cleanup_refl|done]. }
    destruct (get_result w (_memcache_key cls obj))
      as (w1 & [Hget | [e Hget]] & Hsv & Hmc).
    2:{ exists w1.
        split; [right; exists e; unfold _load_entity, bind;
                rewrite Hid; cbn [negb]; by rewrite Hget|].
        split; [by apply get_no_cleanup|].
        unfold cached. rewrite Hmc. unfold same_services in Hsv.
        destruct_and!. congruence. }
    assert (Hstep : _load_entity ext cls (Some obj) w
              = (found <~ get_entity_by_key ext cls obj ;;
                 match found with
                 | Some e =>
                     MemcacheManager_set ext (_memcache_key cls obj)
                                         (PEntity e) None ;;;
                     pure (Some (PEntity e))
                 | None =>
                     MemcacheManager_set ext (_memcache_key cls obj)
                                         NO_OBJECT None ;;;
                     pure None
                 end) w1).
    { unfold _load_entity. rewrite Hid. cbn [negb].
      unfold bind at 1. by rewrite Hget, Hview. }
    rewrite Hstep. clear Hstep.
    assert (Hrec1 : record_of ext cls w1 obj = None).
    { unfold record_of in *. unfold same_services in Hsv. destruct_and!.
      by replace (datastore w1) with (datastore w). }
    destruct (get_entity_by_key_result cls w1 obj) as [Hfound | [_ [e Hfound]]].
    + unfold bind at 1. rewrite Hfound, Hrec1.
      destruct (set_result (set_db_gets (S (db_gets w1)) w1)
                  (_memcache_key cls obj) NO_OBJECT)
        as (w2 & Hset & Hsv2 & Hmc2).
      exists w2. split; [left; unfold bind; by rewrite Hset|].
      assert (Hns : current_namespace w2 = current_namespace w).
      { unfold same_services in *. destruct_and!.
        replace (current_namespace w2)
          with (current_namespace (set_db_gets (S (db_gets w1)) w1)) by done.
        by destruct w1. }
      assert (Hns1 : current_namespace (set_db_gets (S (db_gets w1)) w1)
                     = current_namespace w).
      { unfold same_services in *. destruct_and!. by destruct w1. }
      assert (Hmc1 : memcache (set_db_gets (S (db_gets w1)) w1) = memcache w)
        by (rewrite <- Hmc; by destruct w1).
      split.
      { split.
        - destruct Hmc2 as [Hm | Hm]; [left; congruence|].
          right. exists obj. split; [done|]. by rewrite Hm, Hns1, Hmc1.
        - unfold same_services in *. destruct_and!.
          split; [|destruct w1; cbn in *; congruence].
          destruct w1; cbn in *; congruence. }
      unfold cached.
      rewrite Hns.
      destruct Hmc2 as [-> | ->].
      * replace (memcache (set_db_gets (S (db_gets w1)) w1))
          with (memcache w1) by (by destruct w1). by rewrite Hmc.
      * rewrite lookup_insert_ne.
        -- replace (memcache (set_db_gets (S (db_gets w1)) w1))
             with (memcache w1) by (by destruct w1). by rewrite Hmc.
        -- rewrite Hns1. intros Heq.
           apply (memcache_keys_distinct cls obj). by inversion Heq.
    + exists w1. split; [right; exists e; unfold bind; by rewrite Hfound|].
      split; [by apply get_no_cleanup|].
      unfold cached. rewrite Hmc. unfold same_services in Hsv.
      destruct_and!. congruence.
Qed.

(** C10 (amended). [delete] needs a record it can load through the
    cache-first lookup of [_load_entity]: on a DTO whose id is unset, for
    which the cache facade answers a value equal to the sentinel, or for
    which the cache facade answers nothing and the key strategy finds no
    record in the datastore, it raises before any cache deletion.  No
    deletion is counted, the datastore is untouched, the aggregate entry
    is unchanged, and the distributed cache is as it was except, at most,
    for the sentinel that the failed lookup wrote under the key of the
    record. *)
Theorem delete_unloadable_raises cls w d :
  unloadable ext cls w d ->
  exists e w',
    BaseJsonDao_delete ext cls d w = Raise e w' /\
    no_cleanup cls d w w' /\
    cached w' (_memcache_all_key cls) = cached w (_memcache_all_key cls).
Proof.
  intros Hun.
  destruct (load_entity_unloadable cls w d Hun)
    as (w' & [Hload | [e Hload]] & Hnc & Hall).
  - exists AttributeError, w'. split; [|done].
    unfold BaseJsonDao_delete, bind. by rewrite Hload.
  - exists e, w'. split; [|done].
    unfold BaseJsonDao_delete, bind. by rewrite Hload.
Qed.


(** ** The aggregate cache *)

(** The scan terminates within the two passes [get_all_iter] allows: one
    query when the kind is empty, two otherwise, whatever the fuel. *)
Lemma get_all_iter_loop_result cls w fuel :
  get_all_iter_loop ext (S (S fuel)) cls 0 [] w
  = Ok (dtos_of_rows ext (rows_of_kind (kind cls) (datastore w)))
       (set_db_queries
          (match rows_of_kind (kind cls) (datastore w) with
           | [] => 1 | _ :: _ => 2
           end + db_queries w)%nat w).
Proof.
  unfold dtos_of_rows. cbn [get_all_iter_loop]. unfold query_run, bind, pure.
  rewrite drop_0.
  destruct (rows_of_kind (kind cls) (datastore w)) as [|e rows] eqn:Hrows.
  - done.
  - replace (datastore (set_db_queries (S (db_queries w)) w))
      with (datastore w) by (by destruct w).
    rewrite Hrows. rewrite Nat.add_0_l, drop_all. rewrite app_nil_r.
    by destruct w.
Qed.

Lemma get_all_iter_result cls w :
  get_all_iter ext cls w
  = Ok (dtos_of_rows ext (rows_of_kind (kind cls) (datastore w)))
       (set_db_queries
          (match rows_of_kind (kind cls) (datastore w) with
           | [] => 1 | _ :: _ => 2
           end + db_queries w)%nat w).
Proof. apply get_all_iter_loop_result. Qed.

(** C1 (amended). The sentinel is recognised by structural equality with
    the empty mapping, not by identity: whenever the cache facade answers
    a value equal to the empty mapping for the key of an id, the sentinel
    object or not, [_load_entity] and [load] answer [None] for the id, as
    for a confirmed absence, without reading the datastore. *)
Theorem sentinel_recognised_by_equality cls w obj v w1 :
  eq_NO_OBJECT v = true ->
  truthy_id (Some obj) = true ->
  MemcacheManager_get (_memcache_key cls obj) None w = Ok (Some v) w1 ->
  _load_entity ext cls (Some obj) w = Ok None w1 /\
  load ext cls (Some obj) w = Ok None w1 /\
  db_gets w1 = db_gets w /\ datastore w1 = datastore w.
Proof.
  intros Heq Hid Hget.
  assert (Hload : _load_entity ext cls (Some obj) w = Ok None w1).
  { unfold _load_entity, bind. rewrite Hid. cbn [negb].
    rewrite Hget. cbn. by rewrite Heq. }
  split; [exact Hload|]. split; [unfold load, bind; by rewrite Hload|].
  destruct (get_result w (_memcache_key cls obj))
    as (w' & [Hget' | [e Hget']] & Hsv & _); rewrite Hget in Hget';
    [|done].
  injection Hget' as _ <-. unfold same_services in Hsv. by destruct_and!.
Qed.


Lemma get_live w key :
  live w ->
  MemcacheManager_get key None w
  = Ok (cached w key)
       (set_perf (match cached w key with
                  | Some _ => inc_CACHE_HIT 1 (perf w)
                  | None => inc_CACHE_MISS (perf w)
                  end) w).
Proof.
  intros (Hcan & Hup & Hro).
  destruct w as [lc ro n ctx can ns rq fs up mc pf ds nid g q p hl].
  cbn in *. subst. unfold cached. run_cache. by destruct (mc !! (ns, key)).
Qed.

Lemma storable_NO_OBJECT : storable ext NO_OBJECT.
Proof. unfold storable. apply Z.leb_le, pickled_NO_OBJECT. Qed.

Lemma set_live w key value :
  live w ->
  sizeof ext value <= MEMCACHE_MAX ->
  storable ext value ->
  MemcacheManager_set ext key value None w
  = Ok tt (set_memcache (<[(current_namespace w, key) := value]> (memcache w))
             (set_perf (inc_CACHE_PUT (perf w)) w)).
Proof.
  intros (Hcan & Hup & Hro) Hsize Hst.
  destruct w as [lc ro n ctx can ns rq fs up mc pf ds nid g q p hl].
  cbn in *. subst. run_cache.
  destruct (MEMCACHE_MAX <? sizeof ext value) eqn:Hlt; [zbool; lia|].
  cbn. unfold storable in Hst.
  by rewrite (proj2 (Z.ltb_ge _ _) Hst).
Qed.


(** C3 (what the code does). With caching enabled, the backend reachable
    and no snapshot active, on a kind without rows whose aggregate was
    never computed: the first [get_all_mapped] scans once, caches the
    sentinel as "known empty" and returns the empty mapping; the second
    returns an equal result but scans the datastore again. *)
Theorem get_all_known_empty_rescans cls w :
  live w ->
  cached w (_memcache_all_key cls) = None ->
  rows_of_kind (kind cls) (datastore w) = [] ->
  sizeof ext NO_OBJECT <= MEMCACHE_MAX ->
  exists w1 w2,
    get_all_mapped ext cls w = Ok (PDict ∅) w1 /\
    cached w1 (_memcache_all_key cls) = Some NO_OBJECT /\
    db_queries w1 = S (db_queries w) /\
    get_all_mapped ext cls w1 = Ok (PDict ∅) w2 /\
    db_queries w2 = S (db_queries w1).
Proof.
  intros Hlive Hmiss Hrows Hsize.
  assert (Hscan : forall w0 : @world json,
    live w0 -> datastore w0 = datastore w ->
    (dtos <~ get_all_iter ext cls ;;
     MemcacheManager_set ext (_memcache_all_key cls)
       (if bool_decide (dict_by_id dtos = ∅)
        then NO_OBJECT else PDict (dict_by_id dtos)) None ;;;
     pure (PDict (dict_by_id dtos))) w0
    = Ok (PDict ∅)
        (set_memcache
           (<[(current_namespace w0, _memcache_all_key cls) := NO_OBJECT]>
              (memcache w0))
           (set_perf (inc_CACHE_PUT (perf w0))
              (set_db_queries (S (db_queries w0)) w0)))).
  { intros w0 Hlive0 Hds. unfold bind at 1.
    rewrite get_all_iter_result, Hds, Hrows. cbn.
    unfold bind. rewrite set_live;
      [by destruct w0| |done|apply storable_NO_OBJECT].
    destruct Hlive0 as (? & ? & ?). by destruct w0. }
  eexists _, _. split; [|split; [|split; [|split]]].
  - unfold get_all_mapped. unfold bind at 1.
    rewrite (get_live _ _ Hlive), Hmiss.
    apply Hscan; [|done]. destruct Hlive as (? & ? & ?). by destruct w.
  - unfold cached. cbn. by rewrite lookup_insert_eq.
  - done.
  - unfold get_all_mapped. unfold bind at 1.
    match goal with |- context [MemcacheManager_get _ None ?w0] =>
      assert (Hlive1 : live w0)
        by (destruct Hlive as (? & ? & ?); by destruct w);
      assert (Hc1 : cached w0 (_memcache_all_key cls) = Some NO_OBJECT)
        by (unfold cached; cbn; by rewrite lookup_insert_eq)
    end.
    rewrite (get_live _ _ Hlive1), Hc1. cbn [eq_NO_OBJECT NO_OBJECT negb].
    rewrite Hscan; [reflexivity| |done].
    destruct Hlive as (? & ? & ?). by destruct w.
  - done.
Qed.


(** ** [get_multi] under an active snapshot *)

Lemma set_perf_set_perf (c1 c2 : counters) w :
  set_perf c1 (set_perf c2 w) = set_perf c1 w.
Proof. by destruct w. Qed.

Lemma is_same_app_context_eq w :
  _is_same_app_context_if_set w = Ok (same_context w) w.
Proof.
  unfold _is_same_app_context_if_set, same_context.
  by destruct (_READONLY_APP_CONTEXT w).
Qed.

Lemma local_cache_get_hit w ns key lc d value :
  _IS_READONLY w = true ->
  same_context w = true ->
  _LOCAL_CACHE w = Some lc ->
  lc !! ns = Some d ->
  d !! key = Some value ->
  _local_cache_get key ns w
  = Ok (true, value) (set_perf (inc_CACHE_HIT_LOCAL (perf w)) w).
Proof.
  intros Hro Hsame Hlc Hns Hkey.
  unfold _local_cache_get, bind, gets. rewrite Hro, is_same_app_context_eq, Hsame.
  cbn [assert pure]. unfold local_dict. rewrite Hlc, Hns.
  case_bool_decide as Hd; [by subst d|]. rewrite Hkey.
  unfold count, modify, pure. done.
Qed.

Lemma local_cache_get_multi_loop_hit keys : forall w ns lc d values,
  _IS_READONLY w = true ->
  same_context w = true ->
  _LOCAL_CACHE w = Some lc ->
  lc !! ns = Some d ->
  Forall (fun k => is_Some (d !! k)) keys ->
  exists pf',
    _local_cache_get_multi_loop keys ns values w
    = Ok (true, values ++ ((fun k => default None (d !! k)) <$> keys))
         (set_perf pf' w).
Proof.
  induction keys as [|key keys IH]; intros w ns lc d values Hro Hsame Hlc Hns Hall.
  - exists (perf w). cbn. rewrite app_nil_r. by destruct w.
  - apply Forall_cons in Hall as [[value Hkey] Hall].
    cbn [_local_cache_get_multi_loop]. unfold bind.
    rewrite (local_cache_get_hit w ns key lc d value) by done. cbn [fst snd].
    destruct (IH (set_perf (inc_CACHE_HIT_LOCAL (perf w)) w) ns lc d
                 (values ++ [value])) as (pf' & Hloop);
      [by destruct w|by destruct w|by destruct w|done|done|].
    exists pf'. rewrite Hloop, set_perf_set_perf.
    cbn [fmap list_fmap]. rewrite Hkey. cbn. by rewrite <- app_assoc.
Qed.

(** C7 (what the code does). While a snapshot is active and every
    requested key is in the local snapshot map, [get_multi] returns the
    list of the cached values in request order, not a mapping from key
    to value; a locally cached miss appears in it as [None]. *)
Theorem get_multi_snapshot_returns_list w keys lc d :
  CAN_USE_MEMCACHE w = true ->
  _IS_READONLY w = true ->
  same_context w = true ->
  _LOCAL_CACHE w = Some lc ->
  lc !! current_namespace w = Some d ->
  Forall (fun k => is_Some (d !! k)) keys ->
  exists w',
    MemcacheManager_get_multi keys None w
    = Ok (MList ((fun k => default None (d !! k)) <$> keys)) w' /\
    memcache w' = memcache w.
Proof.
  intros Hcan Hro Hsame Hlc Hns Hall.
  destruct (local_cache_get_multi_loop_hit keys w (current_namespace w) lc d []
              Hro Hsame Hlc Hns Hall) as (pf' & Hloop).
  exists (set_perf pf' w). split; [|by destruct w].
  unfold MemcacheManager_get_multi, _local_cache_get_multi, bind, gets.
  rewrite Hcan. cbn [negb _get_namespace get_namespace gets].
  rewrite Hro, is_same_app_context_eq, Hsame. cbn [assert pure].
  by rewrite Hloop.
Qed.

(** ** Post-load hooks *)

Lemma run_hooks_result hooks : forall i dto_list w,
  run_hooks i hooks dto_list w
  = Ok (hooks_after hooks dto_list)
       (set_hook_log (hook_log w ++ hook_calls i hooks dto_list) w).
Proof.
  induction hooks as [|h hooks IH]; intros i dto_list w.
  - cbn. rewrite app_nil_r. by destruct w.
  - cbn [run_hooks hooks_after hook_calls]. unfold bind, modify.
    rewrite IH. destruct w; cbn. by rewrite <- app_assoc.
Qed.

Lemma overlay_length (old new : list (@dto json)) :
  length (overlay old new) = length old.
Proof.
  revert new. induction old as [|o old IH]; intros [|n new]; cbn; auto.
Qed.

Lemma hooks_after_length hooks : forall dto_list : list (@dto json),
  length (hooks_after hooks dto_list) = length dto_list.
Proof.
  induction hooks as [|h hooks IH]; intros dto_list; cbn; [done|].
  by rewrite IH, overlay_length.
Qed.

(** C8 (what the code does). With caching enabled, the backend reachable
    and no snapshot active, [load] of an id whose entity is cached builds
    the DTO from the cached entity, without reading the datastore, and
    still passes it to the registered hooks: the first hook is called
    with exactly that cache-served DTO. *)
Theorem load_applies_hooks_to_cached cls w obj e h hooks :
  live w ->
  truthy_id (Some obj) = true ->
  cached w (_memcache_key cls obj) = Some (PEntity e) ->
  POST_LOAD_HOOKS cls = Some (h :: hooks) ->
  let d := DTO (Some obj) (loads ext (edata e)) in
  exists d' w',
    load ext cls (Some obj) w = Ok (Some d') w' /\
    db_gets w' = db_gets w /\
    hook_log w'
    = hook_log w ++ (0%nat, [d]) :: hook_calls 1 hooks (overlay [d] (h [d])).
Proof.
  intros Hlive Hid Hc Hhooks d.
  unfold load, _load_entity, bind. rewrite Hid. cbn [negb].
  rewrite (get_live _ _ Hlive), Hc. cbn.
  unfold _maybe_apply_post_hooks. rewrite Hhooks, run_hooks_result.
  eexists _, _. split; [reflexivity|]. by destruct w.
Qed.


(** ** [bulk_load] *)

Lemma found_in_lookup (ns : string) (mc : gmap (string * string) (@pyval json))
    (keys : list string) (k : string) :
  found_in ns mc keys !! k = if decide (k ∈ keys) then mc !! (ns, k) else None.
Proof.
  unfold found_in. induction keys as [|k0 keys IH]; cbn.
  - rewrite lookup_empty. by rewrite decide_False by (by apply not_elem_of_nil).
  - destruct (decide (k = k0)) as [->|Hne].
    + rewrite decide_True by set_solver.
      destruct (mc !! (ns, k0)) eqn:Hk0; [by rewrite lookup_insert_eq|].
      rewrite IH. by destruct (decide (k0 ∈ keys)).
    + assert (Hiff : k ∈ k0 :: keys <-> k ∈ keys)
        by (rewrite elem_of_cons; tauto).
      destruct (mc !! (ns, k0)) eqn:Hk0.
      * rewrite lookup_insert_ne by done. rewrite IH.
        destruct (decide (k ∈ keys)), (decide (k ∈ k0 :: keys)); tauto.
      * rewrite IH.
        destruct (decide (k ∈ keys)), (decide (k ∈ k0 :: keys)); tauto.
Qed.

Lemma get_multi_live w keys :
  live w ->
  MemcacheManager_get_multi keys None w
  = Ok (MDict (found_in (current_namespace w) (memcache w) keys))
       (set_perf (inc_CACHE_HIT
                    (size (found_in (current_namespace w) (memcache w) keys))
                    (perf w)) w).
Proof.
  intros (Hcan & Hup & Hro).
  destruct w as [lc ro n ctx can ns rq fs up mc pf ds nid g q p hl].
  cbn in *. subst.
  unfold MemcacheManager_get_multi, _local_cache_get_multi,
    _local_cache_put_multi, memcache_get_multi.
  by run_monad.
Qed.

Lemma py_dict_lookup {V} (f : obj_id -> V) (ks : list obj_id) (k : obj_id) :
  py_dict (zip ks (f <$> ks)) !! k = if decide (k ∈ ks) then Some (f k) else None.
Proof.
  unfold py_dict.
  assert (Hgen : forall acc : gmap obj_id V,
    foldl (fun acc kv => <[kv.1 := kv.2]> acc) acc (zip ks (f <$> ks)) !! k
    = if decide (k ∈ ks) then Some (f k) else acc !! k).
  { induction ks as [|k0 ks IH]; intros acc; cbn.
    - by rewrite decide_False by (by apply not_elem_of_nil).
    - rewrite IH. destruct (decide (k ∈ ks)) as [Hin|Hnin].
      + by rewrite decide_True by set_solver.
      + destruct (decide (k = k0)) as [->|Hne].
        * rewrite decide_True by set_solver. by rewrite lookup_insert_eq.
        * rewrite decide_False by (rewrite elem_of_cons; tauto).
          by rewrite lookup_insert_ne. }
  rewrite Hgen. by rewrite lookup_empty.
Qed.

Lemma datastore_keys_eq cls (found : gmap string (@pyval json)) ids :
  (filter (fun p => key_missing (MDict found) p.2 = true)
          (zip ids (_memcache_key cls <$> ids))).*1
  = filter (fun obj => key_missing (MDict found) (_memcache_key cls obj) = true)
           ids.
Proof.
  induction ids as [|obj ids IH]; [done|]. cbn [fmap list_fmap zip zip_with].
  rewrite !filter_cons. cbn [snd].
  destruct (decide (key_missing (MDict found) (_memcache_key cls obj) = true));
    [rewrite fmap_cons; cbn [fst]; f_equal|]; exact IH.
Qed.


(** The weave follows [slot_of] and [update_of] position by position and
    touches nothing in the world. *)
Lemma weave_result cls w (ds : gmap obj_id (option (@entity)))
    (found : gmap string (@pyval json)) :
  forall ids ret upd dtos w0,
  (forall obj, obj ∈ ids ->
     found !! _memcache_key cls obj = cached w (_memcache_key cls obj)) ->
  (forall obj, obj ∈ ids ->
     ds !! obj ≫= (fun e => e)
     = match cached w (_memcache_key cls obj) with
       | None => db_find (kind cls) obj (datastore w)
       | Some _ => None
       end) ->
  (forall obj, obj ∈ ids -> coherent cls w obj) ->
  weave ext (zip ids (_memcache_key cls <$> ids)) ds (MDict found)
        ret upd dtos w0
  = Ok (ret ++ (slot_of ext cls w <$> ids),
        update_of cls w ids upd,
        dtos ++ stored_dtos (slot_of ext cls w <$> ids)) w0.
Proof.
  induction ids as [|obj ids IH]; intros ret upd dtos w0 Hfound Hds Hcoh.
  - cbn. by rewrite !app_nil_r.
  - assert (Hin : obj ∈ obj :: ids) by apply list_elem_of_here.
    assert (Hsub : forall o, o ∈ ids -> o ∈ obj :: ids)
      by (intros o Ho; by apply list_elem_of_further).
    assert (IH' := fun r u d w1 =>
      IH r u d w1 (fun o Ho => Hfound o (Hsub o Ho))
         (fun o Ho => Hds o (Hsub o Ho)) (fun o Ho => Hcoh o (Hsub o Ho))).
    clear IH. rewrite !fmap_cons. cbn [zip_with weave].
    rewrite (Hds obj Hin).
    unfold slot_of at 1 3. unfold update_of. cbn [foldl].
    fold (update_of cls w ids).
    pose proof (Hfound obj Hin) as Hf. pose proof (Hcoh obj Hin) as Hc.
    destruct (cached w (_memcache_key cls obj)) as [v|] eqn:Hcache.
    + unfold key_missing. rewrite Hf. unfold subscript, bind.
      rewrite Hf. cbn [pure].
      destruct (Hc v Hcache) as [[e ->] | [Heq Hns]].
      * cbn [eq_NO_OBJECT data_of pure]. rewrite IH'.
        cbn [stored_dtos]. by rewrite <- !app_assoc.
      * rewrite Heq. rewrite IH'.
        destruct v; cbn [stored_dtos]; by rewrite <- !app_assoc.
    + destruct (db_find (kind cls) obj (datastore w)) as [e|] eqn:Hdb.
      * rewrite IH'. cbn [stored_dtos]. by rewrite <- !app_assoc.
      * unfold key_missing. rewrite Hf. rewrite IH'.
        cbn [stored_dtos]. by rewrite <- !app_assoc.
Qed.


Lemma filter_iff_in {A} (P1 P2 : A -> Prop)
    `{!forall x, Decision (P1 x), !forall x, Decision (P2 x)} (l : list A) :
  (forall x, x ∈ l -> P1 x <-> P2 x) -> filter P1 l = filter P2 l.
Proof.
  induction l as [|x l IH]; intros Hiff; [done|].
  rewrite !filter_cons.
  assert (Hx : P1 x <-> P2 x) by (apply Hiff, list_elem_of_here).
  rewrite IH by (intros y Hy; by apply Hiff, list_elem_of_further).
  destruct (decide (P1 x)), (decide (P2 x)); tauto.
Qed.

Lemma py_dict_nil_iff {V} (f : obj_id -> V) (ks : list obj_id) :
  py_dict (zip ks (f <$> ks)) = ∅ <-> ks = [].
Proof.
  split; [|by intros ->].
  destruct ks as [|k ks]; [done|]. intros Hempty.
  pose proof (py_dict_lookup f (k :: ks) k) as Hk.
  rewrite Hempty, lookup_empty in Hk.
  by rewrite decide_True in Hk by apply list_elem_of_here.
Qed.

Lemma fetch_stage cls w0 (dk : list obj_id) :
  match dk with
  | [] => pure ∅
  | _ :: _ => fetched <~ db_get (kind cls) dk ;;
              pure (py_dict (zip dk fetched))
  end w0
  = Ok (py_dict (zip dk ((fun k => db_find (kind cls) k (datastore w0)) <$> dk)))
       (match dk with
        | [] => w0
        | _ :: _ => set_db_gets (S (db_gets w0)) w0
        end).
Proof. by destruct dk. Qed.

Lemma store_all_lookup (ns : string) (m : gmap string (@pyval json))
    (mc : gmap (string * string) (@pyval json)) (k : string) :
  store_all ns m mc !! (ns, k)
  = match m !! k with
    | Some v => Some v
    | None => mc !! (ns, k)
    end.
Proof.
  unfold store_all. revert k.
  apply (map_fold_weak_ind
    (fun r (m : gmap string (@pyval json)) => forall k,
       r !! (ns, k) = match m !! k with
                      | Some v => Some v
                      | None => mc !! (ns, k)
                      end)).
  - intros k. by rewrite lookup_empty.
  - intros i x m' r Hi IH k. destruct (decide (i = k)) as [->|Hne].
    + by rewrite !lookup_insert_eq.
    + rewrite !lookup_insert_ne by congruence. apply IH.
Qed.

Lemma set_multi_live_result w0 mapping :
  live w0 ->
  exists w',
    MemcacheManager_set_multi ext mapping None w0 = Ok tt w' /\
    same_services w0 w' /\
    (multi_fits ext mapping ->
     memcache w' = store_all (current_namespace w0) mapping (memcache w0)).
Proof.
  intros (Hcan & Hup & Hro).
  destruct w0 as [lc ro n ctx can ns rq fs up mc pf ds nid g q p hl].
  cbn in *. subst.
  unfold MemcacheManager_set_multi, _local_cache_put_multi, memcache_set_multi.
  run_monad. case_bool_decide as Hempty.
  - eexists. split; [reflexivity|]. split; [by repeat split|].
    intros _. subst mapping. cbn. unfold store_all. by rewrite map_fold_empty.
  - destruct (MEMCACHE_MULTI_MAX <? mapping_size ext mapping) eqn:Hlt; cbn.
    + eexists. split; [reflexivity|]. split; [by repeat split|].
      unfold multi_fits. intros (Hsize & _). zbool. lia.
    + destruct (all_storable ext mapping) eqn:Hst; cbn;
        (eexists; split; [reflexivity|]; split; [by repeat split|]);
        unfold multi_fits; intros (_ & ?); cbn; congruence.
Qed.

Lemma update_of_cons cls w o ids (acc : gmap string (@pyval json)) :
  update_of cls w (o :: ids) acc
  = update_of cls w ids
      (match cached w (_memcache_key cls o) with
       | Some _ => acc
       | None =>
           match db_find (kind cls) o (datastore w) with
           | Some e => <[_memcache_key cls o := PEntity e]> acc
           | None => <[_memcache_key cls o := NO_OBJECT]> acc
           end
       end).
Proof. done. Qed.

(** Only the key of an id the cache lacks enters the update. *)
Lemma update_of_frame cls w (k : string) : forall ids acc,
  (forall o, o ∈ ids -> cached w (_memcache_key cls o) = None ->
             _memcache_key cls o <> k) ->
  update_of cls w ids acc !! k = acc !! k.
Proof.
  induction ids as [|o ids IH]; intros acc Hne; [done|].
  rewrite update_of_cons.
  rewrite IH by (intros o' Ho'; by apply Hne, list_elem_of_further).
  specialize (Hne o (list_elem_of_here _ _)).
  destruct (cached w (_memcache_key cls o)); [done|].
  destruct (db_find _ _ _); by rewrite lookup_insert_ne by auto.
Qed.

Lemma update_of_missing cls w : forall ids acc obj,
  (forall a b, a ∈ ids -> b ∈ ids ->
               _memcache_key cls a = _memcache_key cls b -> a = b) ->
  obj ∈ ids ->
  cached w (_memcache_key cls obj) = None ->
  update_of cls w ids acc !! _memcache_key cls obj
  = Some (match db_find (kind cls) obj (datastore w) with
          | Some e => PEntity e
          | None => NO_OBJECT
          end).
Proof.
  induction ids as [|o ids IH]; intros acc obj Hinj Hin Hmiss;
    [by apply not_elem_of_nil in Hin|].
  destruct (decide (obj ∈ ids)) as [Hin'|Hnin].
  - rewrite update_of_cons. apply IH; [|done|done].
    intros a b Ha Hb. apply Hinj; by apply list_elem_of_further.
  - apply elem_of_cons in Hin as [->|Hin]; [|done].
    rewrite update_of_cons, update_of_frame.
    + rewrite Hmiss. destruct (db_find _ _ _); by rewrite lookup_insert_eq.
    + intros o' Ho' _ Heq. apply Hnin.
      rewrite <- (Hinj o' o); [done| |apply list_elem_of_here|done].
      by apply list_elem_of_further.
Qed.

Lemma fill_length (slots : list (@slot json)) : forall after,
  length (fill slots after) = length slots.
Proof.
  induction slots as [|[d|d|] slots IH]; intros after; cbn; auto.
  destruct after; cbn; auto.
Qed.

Lemma fill_lookup_missing (slots : list (@slot json)) : forall after i,
  fill slots after !! i = Some None <-> slots !! i = Some Missing.
Proof.
  induction slots as [|s slots IH]; intros after i; [done|].
  destruct i as [|i].
  - destruct s; cbn; [destruct after| |]; cbn; split; intros; done.
  - destruct s; cbn; [destruct after| |]; cbn; apply IH.
Qed.

Lemma fill_lookup_cached (slots : list (@slot json)) : forall after i d,
  slots !! i = Some (FromCache d) -> fill slots after !! i = Some (Some d).
Proof.
  induction slots as [|s slots IH]; intros after i d; [done|].
  destruct i as [|i].
  - cbn. by intros [= ->].
  - destruct s; cbn; [destruct after| |]; cbn; apply IH.
Qed.

Lemma fill_lookup_stored (slots : list (@slot json)) : forall i d,
  slots !! i = Some (FromStore d) ->
  fill slots (stored_dtos slots) !! i = Some (Some d).
Proof.
  induction slots as [|s slots IH]; intros i d; [done|].
  destruct i as [|i].
  - cbn. by intros [= ->].
  - destruct s; cbn; apply IH.
Qed.

Lemma slot_of_missing_iff cls w obj :
  coherent cls w obj ->
  slot_of ext cls w obj = Missing <->
  ~ in_cache cls w obj /\ ~ raw_stored cls w obj.
Proof.
  unfold coherent, in_cache, raw_stored, slot_of. intros Hcoh.
  destruct (cached w (_memcache_key cls obj)) as [v|] eqn:Hc.
  - destruct (Hcoh v eq_refl) as [[e ->] | [Heq Hns]].
    + split; [done|]. intros [Hnc _]. destruct Hnc. eauto.
    + split.
      * intros _. split; [|done]. intros [e [= ->]]. done.
      * intros _. by destruct v.
  - destruct (db_find (kind cls) obj (datastore w)) eqn:Hdb.
    + split; [done|]. intros [_ Hns]. destruct Hns. eauto.
    + split; [|done]. intros _. split; [by intros [e ?]|by intros [e ?]].
Qed.


Lemma maybe_apply_post_hooks_result cls (dto_list : list (@dto json)) w :
  exists log,
    _maybe_apply_post_hooks cls dto_list w
    = Ok (hooked cls dto_list) (set_hook_log log w).
Proof.
  unfold _maybe_apply_post_hooks, hooked.
  destruct (POST_LOAD_HOOKS cls) as [hooks|].
  - rewrite run_hooks_result. eauto.
  - exists (hook_log w). by destruct w.
Qed.

Lemma update_of_nothing_missing cls w ids :
  missing_ids cls w ids = [] -> update_of cls w ids ∅ = ∅.
Proof.
  intros Hnone. apply map_eq. intros k. rewrite update_of_frame; [done|].
  intros o Ho Hmiss _.
  assert (Hin : o ∈ missing_ids cls w ids).
  { unfold missing_ids. apply list_elem_of_filter. split; [|done].
    rewrite Hmiss. by intros [? ?]. }
  rewrite Hnone in Hin. by apply not_elem_of_nil in Hin.
Qed.

(** What [bulk_load] returns and the world it leaves, with caching
    enabled, the backend reachable, no snapshot active and a cache that is
    coherent on the requested ids. *)
Lemma bulk_load_result cls w ids :
  live w ->
  (forall obj, obj ∈ ids -> coherent cls w obj) ->
  exists w',
    bulk_load ext cls ids w
    = Ok (fill (slot_of ext cls w <$> ids)
               (hooked cls (stored_dtos (slot_of ext cls w <$> ids)))) w' /\
    live w' /\ datastore w' = datastore w /\
    current_namespace w' = current_namespace w /\
    db_gets w' = (match missing_ids cls w ids with [] => 0 | _ :: _ => 1 end
                  + db_gets w)%nat /\
    (missing_ids cls w ids = [] -> memcache w' = memcache w) /\
    (multi_fits ext (update_of cls w ids ∅) ->
     memcache w'
     = store_all (current_namespace w) (update_of cls w ids ∅) (memcache w)).
Proof.
  intros Hlive Hcoh. unfold bulk_load. unfold bind at 1.
  rewrite (get_multi_live _ _ Hlive).
  set (found := found_in (current_namespace w) (memcache w)
                         (_memcache_key cls <$> ids)).
  set (w0 := set_perf (inc_CACHE_HIT (size found) (perf w)) w).
  rewrite datastore_keys_eq.
  assert (Hfound : forall obj, obj ∈ ids ->
    found !! _memcache_key cls obj = cached w (_memcache_key cls obj)).
  { intros obj Hobj. subst found. rewrite found_in_lookup.
    rewrite decide_True; [done|]. by apply list_elem_of_fmap_2. }
  assert (Hdk :
    filter (fun obj => key_missing (MDict found) (_memcache_key cls obj) = true)
           ids = missing_ids cls w ids).
  { apply filter_iff_in. intros obj Hobj. unfold key_missing.
    rewrite (Hfound obj Hobj).
    destruct (cached w (_memcache_key cls obj)) as [v|];
      [split; [done|intros Hn; destruct Hn; eauto]
      |split; [by intros _ [? ?]|done]]. }
  rewrite Hdk. set (dk := missing_ids cls w ids).
  unfold bind at 1. rewrite fetch_stage.
  set (ds := py_dict _).
  set (w1 := match dk with [] => w0 | _ :: _ => set_db_gets _ w0 end).
  assert (Hds : forall obj, obj ∈ ids ->
    ds !! obj ≫= (fun e => e)
    = match cached w (_memcache_key cls obj) with
      | None => db_find (kind cls) obj (datastore w)
      | Some _ => None
      end).
  { intros obj Hobj. subst ds. rewrite py_dict_lookup.
    replace (datastore w0) with (datastore w) by (by destruct w).
    destruct (cached w (_memcache_key cls obj)) as [v|] eqn:Hc.
    - rewrite decide_False; [done|]. subst dk. unfold missing_ids.
      rewrite list_elem_of_filter, Hc. intros [Hn _]. destruct Hn. eauto.
    - rewrite decide_True; [done|]. subst dk. unfold missing_ids.
      rewrite list_elem_of_filter, Hc. split; [by intros [? ?]|done]. }
  unfold bind at 1.
  rewrite (weave_result cls w ds found ids [] ∅ [] w1 Hfound Hds Hcoh).
  cbn [fst snd app].
  destruct (maybe_apply_post_hooks_result cls
              (stored_dtos (slot_of ext cls w <$> ids)) w1) as (log & Hhooks).
  unfold bind at 1. rewrite Hhooks.
  set (w2 := set_hook_log log w1).
  assert (Hlive2 : live w2).
  { destruct Hlive as (? & ? & ?). subst w2 w1 w0.
    destruct w, dk; by repeat split. }
  assert (Hframe2 : datastore w2 = datastore w /\
                    current_namespace w2 = current_namespace w /\
                    memcache w2 = memcache w /\
                    db_gets w2 = (match dk with [] => 0 | _ :: _ => 1 end
                                  + db_gets w)%nat).
  { subst w2 w1 w0. destruct w, dk; by repeat split. }
  destruct Hframe2 as (Hds2 & Hns2 & Hmc2 & Hgets2).
  case_bool_decide as Hempty.
  - apply py_dict_nil_iff in Hempty.
    exists w2. cbn. repeat split; try done; try apply Hlive2.
    intros _. rewrite (update_of_nothing_missing cls w ids Hempty).
    unfold store_all. by rewrite map_fold_empty.
  - assert (Hne : dk <> []) by (intros Hnil; by apply Hempty, py_dict_nil_iff).
    destruct (set_multi_live_result w2 (update_of cls w ids ∅) Hlive2)
      as (w3 & Hset & Hsv & Hmc3).
    exists w3. unfold bind. rewrite Hset. cbn.
    unfold same_services in Hsv. destruct Hlive2 as (? & ? & ?).
    destruct_and!. repeat split; try congruence.
    intros Hsize. rewrite (Hmc3 Hsize). congruence.
Qed.


(** The cache entry of a requested id once the update is committed. *)
Lemma cached_after_commit cls w w' ids obj :
  (forall a b, a ∈ ids -> b ∈ ids ->
               _memcache_key cls a = _memcache_key cls b -> a = b) ->
  current_namespace w' = current_namespace w ->
  memcache w'
  = store_all (current_namespace w) (update_of cls w ids ∅) (memcache w) ->
  obj ∈ ids ->
  cached w' (_memcache_key cls obj)
  = match cached w (_memcache_key cls obj) with
    | Some v => Some v
    | None => Some (match db_find (kind cls) obj (datastore w) with
                    | Some e => PEntity e
                    | None => NO_OBJECT
                    end)
    end.
Proof.
  intros Hinj Hns Hmc Hobj. unfold cached at 1.
  rewrite Hns, Hmc, store_all_lookup.
  destruct (cached w (_memcache_key cls obj)) as [v|] eqn:Hc.
  - rewrite update_of_frame.
    + by rewrite lookup_empty.
    + intros o _ Hmiss Heq. rewrite Heq in Hmiss. congruence.
  - by rewrite (update_of_missing cls w ids ∅ obj Hinj Hobj Hc).
Qed.

Lemma missing_ids_nil cls w ids :
  (forall obj, obj ∈ ids -> is_Some (cached w (_memcache_key cls obj))) ->
  missing_ids cls w ids = [].
Proof.
  intros Hall. unfold missing_ids.
  induction ids as [|obj ids IH]; [done|].
  rewrite filter_cons.
  rewrite decide_False by (intros Hn; apply Hn, Hall, list_elem_of_here).
  apply IH. intros o Ho. by apply Hall, list_elem_of_further.
Qed.

(** With caching enabled, the backend reachable, no snapshot active and
    a cache that is coherent on the requested ids, [bulk_load] of any id
    list, saved or not, returns a list of the same length, aligned with
    the input: position [i] is [None] exactly when the id at [i] has a
    record neither in the cache nor, under the key the id makes as it is
    given, in the datastore; a cached record
    yields its DTO at its position and, when the class has no hooks, so
    does a stored one.  When the update fits the multi-write ceiling and
    the ids have distinct cache keys, the sentinel is in the cache
    afterwards for every such id, [_load_entity] then answers [None] for
    it without a datastore read, and a repeated [bulk_load] of the list
    reads the datastore no more. *)
Theorem bulk_load_aligned cls w ids :
  live w ->
  (forall obj, obj ∈ ids -> coherent cls w obj) ->
  exists ret w',
    bulk_load ext cls ids w = Ok ret w' /\
    length ret = length ids /\
    (forall i obj, ids !! i = Some obj ->
       (ret !! i = Some None <->
        ~ in_cache cls w obj /\ ~ raw_stored cls w obj) /\
       (forall e, cached w (_memcache_key cls obj) = Some (PEntity e) ->
          ret !! i = Some (Some (DTO (Some obj) (loads ext (edata e))))) /\
       (forall e, (forall l, hooked cls l = l) ->
          cached w (_memcache_key cls obj) = None ->
          db_find (kind cls) obj (datastore w) = Some e ->
          ret !! i = Some (Some (DTO (Some obj) (loads ext (edata e)))))) /\
    (multi_fits ext (update_of cls w ids ∅) ->
     (forall a b, a ∈ ids -> b ∈ ids ->
                  _memcache_key cls a = _memcache_key cls b -> a = b) ->
     (forall obj, obj ∈ ids ->
        ~ in_cache cls w obj -> ~ raw_stored cls w obj ->
        (exists v, cached w' (_memcache_key cls obj) = Some v /\
                   eq_NO_OBJECT v = true) /\
        (truthy_id (Some obj) = true ->
         exists w'', _load_entity ext cls (Some obj) w' = Ok None w'' /\
                     db_gets w'' = db_gets w')) /\
     db_gets (world_of (bulk_load ext cls ids w')) = db_gets w').
Proof.
  intros Hlive Hcoh.
  destruct (bulk_load_result cls w ids Hlive Hcoh)
    as (w' & Hload & Hlive' & Hds' & Hns' & Hgets' & _ & Hcommit).
  eexists _, w'. split; [exact Hload|]. split; [|split].
  - by rewrite fill_length, length_fmap.
  - intros i obj Hi.
    assert (Hslot : (slot_of ext cls w <$> ids) !! i
                    = Some (slot_of ext cls w obj))
      by (by rewrite list_lookup_fmap, Hi).
    assert (Hin : obj ∈ ids) by (by eapply list_elem_of_lookup_2).
    split; [|split].
    + rewrite fill_lookup_missing, Hslot.
      rewrite <- (slot_of_missing_iff cls w obj (Hcoh obj Hin)).
      split; [by intros [= ->]|by intros ->].
    + intros e Hc. apply fill_lookup_cached. rewrite Hslot.
      unfold slot_of. by rewrite Hc.
    + intros e Hno Hc Hdb. rewrite Hno. apply fill_lookup_stored.
      rewrite Hslot. unfold slot_of. by rewrite Hc, Hdb.
  - intros Hsize Hinj. specialize (Hcommit Hsize).
    assert (Hafter := fun obj Hobj =>
      cached_after_commit cls w w' ids obj Hinj Hns' Hcommit Hobj).
    assert (Hsent : forall obj, obj ∈ ids ->
      ~ in_cache cls w obj -> ~ raw_stored cls w obj ->
      exists v, cached w' (_memcache_key cls obj) = Some v /\
                eq_NO_OBJECT v = true).
    { intros obj Hobj Hnc Hnst. rewrite (Hafter obj Hobj).
      destruct (cached w (_memcache_key cls obj)) as [v|] eqn:Hc.
      - destruct (Hcoh obj Hobj v Hc) as [[e ->] | [Heq _]]; [|by eauto].
        destruct Hnc. unfold in_cache. eauto.
      - destruct (db_find (kind cls) obj (datastore w)) as [e|] eqn:Hdb.
        + destruct Hnst. unfold raw_stored. rewrite Hdb. eauto.
        + by eauto. }
    split.
    + intros obj Hobj Hnc Hnst. split; [by apply Hsent|].
      intros Hid. destruct (Hsent obj Hobj Hnc Hnst) as (v & Hv & Heq).
      unfold _load_entity, bind. rewrite Hid. cbn [negb].
      rewrite (get_live _ _ Hlive'), Hv. cbn. rewrite Heq.
      eexists. split; [reflexivity|]. by destruct w'.
    + assert (Hcoh' : forall obj, obj ∈ ids -> coherent cls w' obj).
      { intros obj Hobj v. rewrite (Hafter obj Hobj).
        unfold raw_stored. rewrite Hds'.
        destruct (cached w (_memcache_key cls obj)) as [v0|] eqn:Hc.
        - intros [= <-]. apply (Hcoh obj Hobj v0 Hc).
        - destruct (db_find (kind cls) obj (datastore w)) as [e|] eqn:Hdb;
            intros [= <-]; [by eauto|].
          right. split; [done|]. by intros [? ?]. }
      destruct (bulk_load_result cls w' ids Hlive' Hcoh')
        as (w'' & Hload' & _ & _ & _ & Hgets'' & _).
      rewrite Hload'. cbn. rewrite Hgets''.
      rewrite missing_ids_nil; [done|].
      intros obj Hobj. rewrite (Hafter obj Hobj).
      destruct (cached w (_memcache_key cls obj)); eauto.
Qed.


(** ** [save_all] *)

(** Whatever [save_all] returns, no identifier in it is a key name. *)
Lemma save_all_never_returns_name cls dtos w ids w' :
  save_all ext cls dtos w = Ok ids w' ->
  Forall (fun i => forall s, i <> Some (IdStr s)) ids.
Proof.
  unfold save_all, bind, pure.
  destruct (save_all_build _ _ _ _ _) as [entities w1|]; [|done].
  destruct (db_put _ _ _) as [keys w2|]; [|done].
  destruct (MemcacheManager_delete _ _ _) as [[] w3|]; [|done].
  destruct (save_all_publish _ _ _ _) as [[] w4|]; [|done].
  intros [= <- <-]. apply Forall_fmap, Forall_forall.
  intros k _ s. by destruct k.
Qed.

End Properties.

(** * Closed instances *)

(** C9 (what the code does). For a kind keyed by name, [save] of a DTO
    named "alice" returns the name, which [load] accepts, while
    [save_all] of the same DTO in the same world stores the same record
    and returns [None] in its place. *)
Theorem save_all_returns_no_name :
  let d := DTO (Some (IdStr "alice")) "{}" in
  (exists w',
     save ex_ext ex_dao_named d ex_world = Ok (IdStr "alice") w' /\
     datastore w' = [("StudentPreferences", IdStr "alice", "{}")] /\
     exists w'',
       load ex_ext ex_dao_named (Some (IdStr "alice")) w'
       = Ok (Some d) w'') /\
  (exists w',
     save_all ex_ext ex_dao_named [d] ex_world = Ok [None] w' /\
     datastore w' = [("StudentPreferences", IdStr "alice", "{}")]).
Proof.
  split.
  - eexists. split; [vm_compute; reflexivity|]. split; [reflexivity|].
    eexists. vm_compute. reflexivity.
  - eexists. split; [vm_compute; reflexivity|]. reflexivity.
Qed.

(** C1 (counterexample). An empty dict that is not the sentinel object is
    cached under the key of a stored question: [_load_entity] and [load]
    answer [None], as for a confirmed absence, although the record is in
    the datastore. *)
Lemma sentinel_identity_counterexample :
  let w := ex_world_empty_dict in
  let v : @pyval string := PDict ∅ in
  is_NO_OBJECT v = false /\
  eq_NO_OBJECT v = true /\
  cached w (_memcache_key ex_dao (IdInt 1)) = Some v /\
  in_store ex_ext ex_dao w (IdInt 1) /\
  (exists w', _load_entity ex_ext ex_dao (Some (IdInt 1)) w = Ok None w') /\
  (exists w', load ex_ext ex_dao (Some (IdInt 1)) w = Ok None w').
Proof.
  cbv zeta. split; [reflexivity|]. split; [reflexivity|].
  split; [vm_compute; reflexivity|].
  split; [eexists; vm_compute; reflexivity|].
  split; eexists; vm_compute; reflexivity.
Qed.

(** The amended C1 at the world of the counterexample. *)
Lemma sentinel_recognised_by_equality_witness :
  let w := ex_world_empty_dict in
  let w1 := set_perf (inc_CACHE_HIT 1 (perf w)) w in
  let v : @pyval string := PDict ∅ in
  eq_NO_OBJECT v = true /\
  truthy_id (Some (IdInt 1)) = true /\
  MemcacheManager_get (_memcache_key ex_dao (IdInt 1)) None w = Ok (Some v) w1 /\
  _load_entity ex_ext ex_dao (Some (IdInt 1)) w = Ok None w1 /\
  load ex_ext ex_dao (Some (IdInt 1)) w = Ok None w1.
Proof.
  cbv zeta. split; [reflexivity|]. split; [reflexivity|].
  split; [vm_compute; reflexivity|].
  destruct (sentinel_recognised_by_equality ex_ext ex_dao ex_world_empty_dict
              (IdInt 1) (PDict ∅)
              (set_perf (inc_CACHE_HIT 1 (perf ex_world_empty_dict))
                        ex_world_empty_dict))
    as (Ha & Hb & _);
    [reflexivity|reflexivity|vm_compute; reflexivity|].
  split; [exact Ha|exact Hb].
Defined.

(** C2 at [ex_world], on a sequence with two unmatched [end_readonly]. *)
Lemma snapshot_session_invariant_witness :
  snapshot_initial ex_world /\
  snapshot_inv (run_calls [Begin; Begin; Finish; Finish; Finish; Begin] ex_world).
Proof.
  assert (Hinit : snapshot_initial ex_world) by (by repeat split).
  split; [exact Hinit|].
  apply (snapshot_session_invariant ex_world Hinit).
Defined.

(** C3 at [ex_world]: two calls on the empty kind, two scans. *)
Lemma get_all_known_empty_rescans_witness :
  live ex_world /\
  cached ex_world (_memcache_all_key ex_dao) = None /\
  rows_of_kind (kind ex_dao) (datastore ex_world) = [] /\
  sizeof ex_ext NO_OBJECT <= MEMCACHE_MAX /\
  exists w1 w2,
    get_all_mapped ex_ext ex_dao ex_world = Ok (PDict ∅) w1 /\
    db_queries w1 = 1%nat /\
    get_all_mapped ex_ext ex_dao w1 = Ok (PDict ∅) w2 /\
    db_queries w2 = 2%nat.
Proof.
  assert (H1 : live ex_world) by (by repeat split).
  assert (H2 : cached ex_world (_memcache_all_key ex_dao) = None)
    by (vm_compute; reflexivity).
  assert (H3 : rows_of_kind (kind ex_dao) (datastore ex_world) = [])
    by reflexivity.
  assert (H4 : sizeof ex_ext NO_OBJECT <= MEMCACHE_MAX)
    by (vm_compute; discriminate).
  repeat (split; [assumption|]).
  destruct (get_all_known_empty_rescans ex_ext ex_dao ex_world H1 H2 H3 H4)
    as (w1 & w2 & Ha & _ & Hb & Hc & Hd).
  exists w1, w2. rewrite Hd, Hb. repeat split; assumption.
Defined.


(** C6 at [ex_world], for an entity whose data is two million characters
    long: the object is small, its serialized form is not. *)
Lemma oversize_serialized_value_not_counted_witness :
  CAN_USE_MEMCACHE ex_world = true /\
  sizeof ex_ext (PEntity ex_big_entity) <= MEMCACHE_MAX /\
  MEMCACHE_MAX < pickled_size ex_ext (PEntity ex_big_entity) /\
  MemcacheManager_set ex_ext "k" (PEntity ex_big_entity) None ex_world
  = Ok tt (set_perf (inc_CACHE_PUT (perf ex_world)) ex_world) /\
  CACHE_PUT_TOO_BIG (perf (set_perf (inc_CACHE_PUT (perf ex_world)) ex_world))
  = 0%nat.
Proof.
  assert (H1 : sizeof ex_ext (PEntity ex_big_entity) <= MEMCACHE_MAX)
    by (vm_compute; discriminate).
  assert (H2 : MEMCACHE_MAX < pickled_size ex_ext (PEntity ex_big_entity))
    by (apply Z.ltb_lt; vm_compute; reflexivity).
  split; [reflexivity|]. split; [exact H1|]. split; [exact H2|].
  destruct (oversize_serialized_value_not_counted ex_ext ex_world "k"
              (PEntity ex_big_entity) None eq_refl H1 H2) as (Ha & _).
  split; [exact Ha|reflexivity].
Defined.

(** C7 at [ex_world_snapshot]. *)
Lemma get_multi_snapshot_returns_list_witness :
  CAN_USE_MEMCACHE ex_world_snapshot = true /\
  _IS_READONLY ex_world_snapshot = true /\
  same_context ex_world_snapshot = true /\
  exists w',
    MemcacheManager_get_multi ["k1"; "k2"] None ex_world_snapshot
    = Ok (MList [Some (PInt 7); None]) w'.
Proof.
  repeat (split; [reflexivity|]).
  destruct (get_multi_snapshot_returns_list ex_world_snapshot ["k1"; "k2"]
              {[ "ns" := ex_local ]} ex_local)
    as (w' & Hget & _); try reflexivity.
  - repeat constructor; eexists; vm_compute; reflexivity.
  - exists w'. exact Hget.
Defined.

(** C8 at [ex_world_cached], with the hook of [ex_dao_hooked]. *)
Lemma load_applies_hooks_to_cached_witness :
  live ex_world_cached /\
  cached ex_world_cached (_memcache_key ex_dao_hooked (IdInt 1))
  = Some (PEntity ex_entity) /\
  exists d' w',
    load ex_ext ex_dao_hooked (Some (IdInt 1)) ex_world_cached
    = Ok (Some d') w' /\
    db_gets w' = 0%nat /\
    hook_log w' = [(0%nat, [DTO (Some (IdInt 1)) "{x:1}"])].
Proof.
  assert (H1 : live ex_world_cached) by (by repeat split).
  assert (H2 : cached ex_world_cached (_memcache_key ex_dao_hooked (IdInt 1))
               = Some (PEntity ex_entity)) by (vm_compute; reflexivity).
  split; [exact H1|]. split; [exact H2|].
  destruct (load_applies_hooks_to_cached ex_ext ex_dao_hooked ex_world_cached
              (IdInt 1) ex_entity (fun dto_list => dto_list) []
              H1 eq_refl H2 eq_refl) as (d' & w' & Ha & Hb & Hc).
  exists d', w'. split; [exact Ha|]. split; [exact Hb|exact Hc].
Defined.

(** The sibling path of C8: for the same cached id [bulk_load] serves the
    DTO from the cache and hands the hook an empty list. *)
Lemma bulk_load_skips_hooks_for_cached :
  exists w',
    bulk_load ex_ext ex_dao_hooked [IdInt 1] ex_world_cached
    = Ok [Some (DTO (Some (IdInt 1)) "{x:1}")] w' /\
    hook_log w' = [(0%nat, [])] /\
    db_gets w' = 0%nat.
Proof. eexists. split; [vm_compute; reflexivity|]. by split. Qed.

(** C10 (counterexample). The record of question 1 is absent from the
    datastore while a stale entity of it is cached: [delete] returns
    normally and removes both the entry of the record and the aggregate
    entry.  And where [delete] does raise, for an id that is neither
    cached nor stored, the failed lookup has written the cache: the
    sentinel is under the key of the record afterwards. *)
Lemma delete_stale_entity_counterexample :
  let w := ex_world_stale in
  let d := DTO (Some (IdInt 1)) "{x:1}" in
  (record_of ex_ext ex_dao w (IdInt 1) = None /\
   is_Some (cached w (_memcache_key ex_dao (IdInt 1))) /\
   is_Some (cached w (_memcache_all_key ex_dao)) /\
   exists w',
     BaseJsonDao_delete ex_ext ex_dao d w = Ok tt w' /\
     cached w' (_memcache_key ex_dao (IdInt 1)) = None /\
     cached w' (_memcache_all_key ex_dao) = None) /\
  (record_of ex_ext ex_dao ex_world (IdInt 2) = None /\
   cached ex_world (_memcache_key ex_dao (IdInt 2)) = None /\
   exists w',
     BaseJsonDao_delete ex_ext ex_dao (DTO (Some (IdInt 2)) "{}") ex_world
     = Raise AttributeError w' /\
     cached w' (_memcache_key ex_dao (IdInt 2)) = Some NO_OBJECT).
Proof.
  cbv zeta. split.
  - split; [reflexivity|].
    split; [eexists; vm_compute; reflexivity|].
    split; [eexists; vm_compute; reflexivity|].
    eexists. split; [vm_compute; reflexivity|].
    split; vm_compute; reflexivity.
  - split; [reflexivity|]. split; [vm_compute; reflexivity|].
    eexists. split; vm_compute; reflexivity.
Qed.

(** The amended C10 at [ex_world_stored], for an id that was never saved
    and for an unset id. *)
Lemma delete_unloadable_raises_witness :
  let d := DTO (Some (IdInt 2)) "{}" in
  unloadable ex_ext ex_dao ex_world_stored d /\
  unloadable ex_ext ex_dao ex_world_stored (DTO None "{}") /\
  exists e w',
    BaseJsonDao_delete ex_ext ex_dao d ex_world_stored = Raise e w' /\
    no_cleanup ex_dao d ex_world_stored w'.
Proof.
  cbv zeta.
  assert (H1 : unloadable ex_ext ex_dao ex_world_stored
                 (DTO (Some (IdInt 2)) "{}")).
  { right. right. exists (IdInt 2).
    split; [reflexivity|]. split; vm_compute; reflexivity. }
  split; [exact H1|]. split; [by left|].
  destruct (delete_unloadable_raises ex_ext ex_dao ex_world_stored
              (DTO (Some (IdInt 2)) "{}") H1) as (e & w' & Ha & Hb & _).
  exists e, w'. split; [exact Ha|exact Hb].
Defined.

(** C4 (what the code does). Question 1 is stored and not cached, and the
    id comes as the string ['1'], as the ids of question references do.
    [load] resolves it through [int(key)] and returns the record, while
    [bulk_load] asks the datastore for the key named ['1'], returns
    [None] in its place and commits the sentinel under the cache key that
    ['1'] and [1] share.  After that [load] of either id and [bulk_load]
    of the number answer [None] for the stored record. *)
Theorem bulk_load_misses_string_id :
  let w := ex_world_stored in
  let d := DTO (Some (IdStr "1")) "{x:1}" in
  in_store ex_ext ex_dao w (IdStr "1") /\
  cached w (_memcache_key ex_dao (IdStr "1")) = None /\
  (exists w', load ex_ext ex_dao (Some (IdStr "1")) w = Ok (Some d) w') /\
  exists w',
    bulk_load ex_ext ex_dao [IdStr "1"] w = Ok [None] w' /\
    cached w' (_memcache_key ex_dao (IdInt 1)) = Some NO_OBJECT /\
    datastore w' = datastore w /\
    (exists w'', load ex_ext ex_dao (Some (IdStr "1")) w' = Ok None w'') /\
    (exists w'', load ex_ext ex_dao (Some (IdInt 1)) w' = Ok None w'') /\
    (exists w'', bulk_load ex_ext ex_dao [IdInt 1] w' = Ok [None] w'').
Proof.
  cbv zeta.
  split; [eexists; vm_compute; reflexivity|].
  split; [vm_compute; reflexivity|].
  split; [eexists; vm_compute; reflexivity|].
  eexists. split; [vm_compute; reflexivity|].
  split; [vm_compute; reflexivity|]. split; [reflexivity|].
  split; [|split]; eexists; vm_compute; reflexivity.
Qed.

(** The alignment of [bulk_load] at [ex_world_stored], for a stored id and
    one never saved. *)
Lemma bulk_load_aligned_witness :
  let ids := [IdInt 1; IdInt 2] in
  live ex_world_stored /\
  (forall obj, obj ∈ ids -> coherent ex_dao ex_world_stored obj) /\
  multi_fits ex_ext (update_of ex_dao ex_world_stored ids ∅) /\
  (forall a b, a ∈ ids -> b ∈ ids ->
     _memcache_key ex_dao a = _memcache_key ex_dao b -> a = b) /\
  exists ret w',
    bulk_load ex_ext ex_dao ids ex_world_stored = Ok ret w' /\
    length ret = 2%nat /\
    ret !! 1%nat = Some None /\
    (exists v, cached w' (_memcache_key ex_dao (IdInt 2)) = Some v /\
               eq_NO_OBJECT v = true) /\
    db_gets (world_of (bulk_load ex_ext ex_dao ids w')) = db_gets w'.
Proof.
  cbv zeta.
  assert (H1 : live ex_world_stored) by (by repeat split).
  assert (H2 : forall obj, obj ∈ [IdInt 1; IdInt 2] ->
                 coherent ex_dao ex_world_stored obj).
  { intros obj _ v Hv. unfold cached in Hv. cbn in Hv.
    rewrite lookup_empty in Hv. discriminate Hv. }
  assert (H3 : multi_fits ex_ext
                 (update_of ex_dao ex_world_stored [IdInt 1; IdInt 2] ∅))
    by (split; [vm_compute; discriminate|vm_compute; reflexivity]).
  assert (H4 : forall a b, a ∈ [IdInt 1; IdInt 2] -> b ∈ [IdInt 1; IdInt 2] ->
                 _memcache_key ex_dao a = _memcache_key ex_dao b -> a = b).
  { intros a b Ha Hb.
    apply elem_of_cons in Ha as [->|Ha]; [|apply list_elem_of_singleton in Ha as ->];
      (apply elem_of_cons in Hb as [->|Hb];
       [|apply list_elem_of_singleton in Hb as ->]);
      vm_compute; intros Heq; first [reflexivity | discriminate Heq]. }
  repeat (split; [assumption|]).
  destruct (bulk_load_aligned ex_ext ex_dao ex_world_stored [IdInt 1; IdInt 2]
              H1 H2) as (ret & w' & Ha & Hb & Hc & Hd).
  destruct (Hd H3 H4) as (He & Hf).
  assert (Hnc : ~ in_cache ex_dao ex_world_stored (IdInt 2)).
  { intros [e He']. unfold cached in He'. cbn in He'.
    rewrite lookup_empty in He'. discriminate He'. }
  assert (Hns : ~ raw_stored ex_dao ex_world_stored (IdInt 2)).
  { intros [e He']. vm_compute in He'. discriminate He'. }
  exists ret, w'. split; [exact Ha|]. split; [exact Hb|].
  split; [apply (Hc 1%nat (IdInt 2) eq_refl); by split|].
  split; [|exact Hf].
  apply (He (IdInt 2)); [|exact Hnc|exact Hns].
  apply list_elem_of_further, list_elem_of_here.
Defined.

(** * Further properties of the module *)

Section Further.

Context {json : Type} (ext : @externals json).
Implicit Types (w : @world json) (cls : @dao json).

Ltac run_cache :=
  unfold MemcacheManager_get, MemcacheManager_set, MemcacheManager_set_multi,
    MemcacheManager_delete, MemcacheManager_delete_multi, MemcacheManager_incr,
    _local_cache_get, _local_cache_put, local_dict, local_dict_store,
    memcache_get, memcache_set, memcache_set_multi, memcache_delete,
    memcache_delete_multi, memcache_incr;
  run_monad.

Ltac bool_hyps :=
  repeat match goal with
  | H : bool_decide _ = true |- _ => apply bool_decide_eq_true in H
  | H : bool_decide _ = false |- _ => apply bool_decide_eq_false in H
  | H : negb _ = true |- _ => apply negb_true_iff in H
  | H : negb _ = false |- _ => apply negb_false_iff in H
  end.

(** ** The facade as a map *)

Lemma delete_live w key :
  live w ->
  MemcacheManager_delete key None w
  = Ok tt (set_memcache (delete (current_namespace w, key) (memcache w))
             (set_perf (inc_CACHE_DELETE 1 (perf w)) w)).
Proof.
  intros (Hcan & Hup & Hro).
  destruct w as [lc ro n ctx can ns rq fs up mc pf ds nid g q p hl].
  cbn in *. subst. by run_cache.
Qed.

(** With caching disabled every read finds nothing and every write does
    nothing: the world is left exactly as it was ([delete] and
    [delete_multi] still refuse to run under a snapshot). *)
Theorem caching_disabled_is_inert w key key_list value mapping delta namespace :
  CAN_USE_MEMCACHE w = false ->
  MemcacheManager_get key namespace w = Ok None w /\
  MemcacheManager_get_multi key_list namespace w = Ok (MDict ∅) w /\
  MemcacheManager_set ext key value namespace w = Ok tt w /\
  MemcacheManager_set_multi ext mapping namespace w = Ok tt w /\
  MemcacheManager_incr key delta namespace w = Ok tt w /\
  (_IS_READONLY w = false ->
   MemcacheManager_delete key namespace w = Ok tt w /\
   MemcacheManager_delete_multi key_list namespace w = Ok tt w).
Proof.
  intros Hcan.
  destruct w as [lc ro n ctx can ns rq fs up mc pf ds nid g q p hl].
  cbn in Hcan. subst can.
  unfold MemcacheManager_get_multi. run_cache.
  repeat split; try done; cbn in *; subst; done.
Qed.





(** ** Reads under a snapshot *)




(** Under a snapshot [delete] and [delete_multi] refuse to run: they
    raise the assertion error before anything is counted or sent. *)
Theorem delete_forbidden_in_snapshot w key key_list namespace :
  _IS_READONLY w = true ->
  MemcacheManager_delete key namespace w = Raise (AssertionError "") w /\
  MemcacheManager_delete_multi key_list namespace w
  = Raise (AssertionError "") w.
Proof.
  intros Hro.
  destruct w as [lc ro n ctx can ns rq fs up mc pf ds nid g q p hl].
  cbn in Hro. subst ro. by run_cache.
Qed.

(** ** The snapshot life cycle *)

(** [clear_readonly_cache] never raises: from any state it leaves no
    snapshot state, releases the read-only mode of the owning context and
    touches neither the distributed cache nor the datastore. *)
Theorem clear_readonly_cache_resets w :
  exists w',
    clear_readonly_cache w = Ok tt w' /\
    snapshot_cleared w' /\
    (forall c, _READONLY_APP_CONTEXT w = Some c -> c ∉ fs_readonly w') /\
    (forall c, _READONLY_APP_CONTEXT w <> Some c ->
               (c ∈ fs_readonly w' <-> c ∈ fs_readonly w)) /\
    memcache w' = memcache w /\ datastore w' = datastore w /\
    perf w' = perf w.
Proof.
  destruct w as [lc ro n ctx can ns rq fs up mc pf ds nid g q p hl].
  run_monad. destruct ctx as [c|]; cbn.
  - case_bool_decide as Hin; cbn; eexists; (split; [reflexivity|]); cbn;
      (split; [by repeat split|]); (split; [|split; [|done]]).
    + intros c' [= <-]. rewrite elem_of_difference, elem_of_singleton. tauto.
    + intros c' Hne. assert (c' <> c) by congruence.
      rewrite elem_of_difference, elem_of_singleton. tauto.
    + by intros c' [= <-].
    + done.
  - eexists; (split; [reflexivity|]); cbn.
    split; [by repeat split|]. by repeat split.
Qed.

(** The session state that [n] nested [begin_readonly] calls reach and
    that as many [end_readonly] calls undo. *)
Lemma begin_readonly_step w :
  snapshot_inv w ->
  (_READONLY_REENTRY_COUNT w = 0 -> _READONLY_APP_CONTEXT w = None) ->
  same_context w = true ->
  exists w',
    begin_readonly w = Ok tt w' /\
    snapshot_inv w' /\ same_context w' = true /\
    _READONLY_REENTRY_COUNT w' = _READONLY_REENTRY_COUNT w + 1 /\
    request_context w' = request_context w /\
    memcache w' = memcache w /\ datastore w' = datastore w.
Proof.
  destruct w as [lc ro n ctx can ns rq fs up mc pf ds nid g q p hl].
  intros (Hlc & Hn & Hro) Hctx; cbn in *.
  unfold same_context; cbn. intros Hsame.
  unfold begin_readonly. run_monad.
  destruct (0 <=? n) eqn:Hle; [|zbool; lia]. cbn.
  assert (Hactive : n <> 0 -> ro = true /\ is_Some lc).
  { intros Hnz. destruct ro; [split; [done|by apply Hlc]|].
    destruct Hro as [Hro _]. specialize (Hro eq_refl). lia. }
  destruct (n =? 0) eqn:Hz; zbool.
  - rewrite (Hctx Hz). subst n. cbn.
    destruct rq as [c|]; cbn; eexists; (split; [reflexivity|]);
      unfold snapshot_inv, same_context; cbn;
      rewrite ?Nat.eqb_refl; repeat split; eauto; try done; try lia.
  - destruct (Hactive Hz) as [-> Hsome].
    assert (Hz' := proj2 (Z.eqb_neq n 0) Hz).
    destruct ctx as [c|]; [rewrite Hsame|]; cbn; rewrite ?Hsame, ?Hz'; cbn;
      eexists; (split; [reflexivity|]);
      unfold snapshot_inv, same_context; cbn;
      rewrite ?Hsame; repeat split; eauto; try done; try lia.
Qed.

Lemma end_readonly_step w :
  snapshot_inv w ->
  0 < _READONLY_REENTRY_COUNT w ->
  same_context w = true ->
  exists w',
    end_readonly w = Ok tt w' /\
    snapshot_inv w' /\ same_context w' = true /\
    (_READONLY_REENTRY_COUNT w' = 0 -> _READONLY_APP_CONTEXT w' = None) /\
    _READONLY_REENTRY_COUNT w' = _READONLY_REENTRY_COUNT w - 1 /\
    request_context w' = request_context w /\
    memcache w' = memcache w /\ datastore w' = datastore w.
Proof.
  destruct w as [lc ro n ctx can ns rq fs up mc pf ds nid g q p hl].
  intros (Hlc & Hn & Hro) Hpos; cbn in *.
  unfold same_context; cbn. intros Hsame.
  unfold end_readonly. run_monad.
  destruct (0 <? n) eqn:Hlt; [|zbool; lia]. cbn.
  assert (Hactive : ro = true /\ is_Some lc).
  { destruct ro; [split; [done|by apply Hlc]|].
    destruct Hro as [Hro _]. specialize (Hro eq_refl). lia. }
  destruct Hactive as [-> Hsome].
  destruct ctx as [c|]; [rewrite Hsame|]; cbn;
    (destruct (n - 1 =? 0) eqn:Hz; zbool; cbn;
     eexists; (split; [reflexivity|]);
     unfold snapshot_inv, same_context; cbn;
     rewrite ?Hsame; repeat split; eauto; try done; try lia).
Qed.

Lemma run_all_app (cs1 cs2 : list (@call)) w :
  run_all (cs1 ++ cs2) w
  = match run_all cs1 w with
    | Ok _ w' => run_all cs2 w'
    | Raise e w' => Raise e w'
    end.
Proof.
  revert w. induction cs1 as [|c cs1 IH]; intros w; [done|].
  cbn [app run_all]. unfold bind. destruct (run_call c w); [apply IH|done].
Qed.

Lemma run_all_begins n : forall w,
  snapshot_inv w ->
  (_READONLY_REENTRY_COUNT w = 0 -> _READONLY_APP_CONTEXT w = None) ->
  same_context w = true ->
  exists w',
    run_all (replicate n Begin) w = Ok tt w' /\
    snapshot_inv w' /\ same_context w' = true /\
    (_READONLY_REENTRY_COUNT w' = 0 -> _READONLY_APP_CONTEXT w' = None) /\
    _READONLY_REENTRY_COUNT w' = _READONLY_REENTRY_COUNT w + Z.of_nat n /\
    request_context w' = request_context w /\
    memcache w' = memcache w /\ datastore w' = datastore w.
Proof.
  induction n as [|n IH]; intros w Hinv Hctx Hsame.
  - exists w. cbn. repeat split; try done; try apply Hinv. lia.
  - destruct (begin_readonly_step w Hinv Hctx Hsame)
      as (w1 & Hb & Hinv1 & Hsame1 & Hcount1 & Hrq1 & Hmc1 & Hds1).
    destruct (IH w1 Hinv1) as (w2 & Hrun & Hinv2 & Hsame2 & Hctx2 & Hcount2
                               & Hrq2 & Hmc2 & Hds2); [|done|].
    { destruct Hinv as (_ & Hn & _). lia. }
    exists w2. cbn [replicate run_all run_call]. unfold bind.
    rewrite Hb, Hrun. repeat split; try done; try apply Hinv2;
      try congruence. lia.
Qed.

Lemma run_all_ends n : forall w,
  snapshot_inv w ->
  Z.of_nat n <= _READONLY_REENTRY_COUNT w ->
  (_READONLY_REENTRY_COUNT w = 0 -> _READONLY_APP_CONTEXT w = None) ->
  same_context w = true ->
  exists w',
    run_all (replicate n Finish) w = Ok tt w' /\
    snapshot_inv w' /\
    (_READONLY_REENTRY_COUNT w' = 0 -> _READONLY_APP_CONTEXT w' = None) /\
    _READONLY_REENTRY_COUNT w' = _READONLY_REENTRY_COUNT w - Z.of_nat n /\
    request_context w' = request_context w /\
    memcache w' = memcache w /\ datastore w' = datastore w.
Proof.
  induction n as [|n IH]; intros w Hinv Hle Hctx Hsame.
  - exists w. cbn. repeat split; try done; try apply Hinv. lia.
  - destruct (end_readonly_step w Hinv) as
      (w1 & He & Hinv1 & Hsame1 & Hctx1 & Hcount1 & Hrq1 & Hmc1 & Hds1);
      [lia|done|].
    destruct (IH w1 Hinv1) as (w2 & Hrun & Hinv2 & Hctx2 & Hcount2
                               & Hrq2 & Hmc2 & Hds2); [lia|done|done|].
    exists w2. cbn [replicate run_all run_call]. unfold bind.
    rewrite He, Hrun. repeat split; try done; try apply Hinv2;
      try congruence. lia.
Qed.

(** Nesting is balanced: from the initial class state, [n]
    [begin_readonly] calls followed by [n] [end_readonly] calls all
    return, and leave no snapshot state, with the distributed cache and
    the datastore as they were. *)
Theorem nested_snapshot_unwinds (n : nat) w0 :
  snapshot_initial w0 ->
  exists w',
    run_all (replicate n Begin ++ replicate n Finish) w0 = Ok tt w' /\
    snapshot_cleared w' /\
    memcache w' = memcache w0 /\ datastore w' = datastore w0.
Proof.
  intros Hinit.
  assert (Hinv : snapshot_inv w0) by (by apply snapshot_cleared_inv).
  destruct Hinit as (Hlc & Hro & Hcount & Hctx).
  destruct (run_all_begins n w0 Hinv) as
    (w1 & Hrun1 & Hinv1 & Hsame1 & Hctx1 & Hcount1 & Hrq1 & Hmc1 & Hds1);
    [done|by unfold same_context; rewrite Hctx|].
  destruct (run_all_ends n w1 Hinv1) as
    (w2 & Hrun2 & Hinv2 & Hctx2 & Hcount2 & Hrq2 & Hmc2 & Hds2);
    [lia|done|done|].
  exists w2. rewrite run_all_app, Hrun1, Hrun2.
  split; [done|]. split; [|split; congruence].
  assert (Hz : _READONLY_REENTRY_COUNT w2 = 0) by lia.
  destruct Hinv2 as (Hlc2 & _ & Hro2).
  assert (Hro2' : _IS_READONLY w2 = false) by (by apply Hro2).
  repeat split; try done; [|by apply Hctx2].
  destruct (_LOCAL_CACHE w2) eqn:Hl; [|done].
  assert (_IS_READONLY w2 = true) by (apply Hlc2; eauto). congruence.
Qed.


(** ** Global counter values *)


(** ** Read-through loading *)

Lemma same_store_refl w : same_store w w.
Proof. by repeat split. Qed.

Lemma same_store_trans w1 w2 w3 :
  same_store w1 w2 -> same_store w2 w3 -> same_store w1 w3.
Proof.
  unfold same_store. intros H1 H2. destruct_and!. repeat split; congruence.
Qed.

Lemma same_services_store w w' : same_services w w' -> same_store w w'.
Proof.
  unfold same_services, same_store. intros H. destruct_and!.
  by repeat split.
Qed.

Lemma same_store_live w w' : same_store w w' -> live w -> live w'.
Proof.
  unfold same_store, live. intros H (? & ? & ?). destruct_and!.
  repeat split; congruence.
Qed.







(** ** Saving *)

Lemma db_find_upsert kind k data rows :
  db_find kind k (upsert kind k data rows) = Some (Entity (Some k) data).
Proof.
  induction rows as [|row rows IH]; cbn; [by rewrite bool_decide_eq_true_2|].
  case_bool_decide as H; cbn.
  - by rewrite bool_decide_eq_true_2.
  - by rewrite bool_decide_eq_false_2.
Qed.


Lemma db_find_filter kind k rows :
  db_find kind k (filter (fun row => fst row ≠ (kind, k)) rows) = None.
Proof.
  induction rows as [|row rows IH]; [done|].
  rewrite filter_cons. case_decide as H; [|done].
  cbn. by rewrite bool_decide_eq_false_2.
Qed.


(** [set] outside a snapshot: the value is stored when it fits, and the
    cache is left as it was when it does not. *)
Lemma set_live_result w key value :
  live w ->
  exists w',
    MemcacheManager_set ext key value None w = Ok tt w' /\
    live w' /\ datastore w' = datastore w /\ next_id w' = next_id w /\
    db_puts w' = db_puts w /\ db_gets w' = db_gets w /\
    db_queries w' = db_queries w /\ hook_log w' = hook_log w /\
    current_namespace w' = current_namespace w /\
    (fits ext value ->
     memcache w' = <[(current_namespace w, key) := value]> (memcache w)) /\
    (~ fits ext value -> memcache w' = memcache w).
Proof.
  intros (Hcan & Hup & Hro).
  destruct w as [lc ro n ctx can ns rq fs up mc pf ds nid g q p hl].
  cbn in *. subst. unfold fits, storable. run_cache.
  destruct (MEMCACHE_MAX <? sizeof ext value) eqn:Hlt; cbn;
    [|destruct (MAX_VALUE_SIZE <? pickled_size ext value) eqn:Hlt'; cbn];
    zbool; eexists; (split; [reflexivity|]); unfold live; cbn;
    repeat split; try done; intros; first [lia | tauto].
Qed.

(** What [_load_entity] and [_create_if_necessary] leave alone. *)
Lemma load_entity_frame cls o w r w1 :
  live w ->
  _load_entity ext cls o w = Ok r w1 ->
  same_store w w1.
Proof.
  intros Hlive H. destruct o as [obj|];
    [|inversion H; apply same_store_refl].
  unfold _load_entity, bind in H.
  destruct (negb (truthy_id (Some obj)));
    [inversion H; apply same_store_refl|].
  rewrite (get_live _ _ Hlive) in H.
  assert (Hperf : forall pf, same_store w (set_perf pf w))
    by (intros pf; destruct w; by repeat split).
  assert (Hmiss : forall pf w0 (r0 : option (@pyval json)),
    (found <~ get_entity_by_key ext cls obj ;;
     match found with
     | Some e =>
         MemcacheManager_set ext (_memcache_key cls obj) (PEntity e) None ;;;
         pure (Some (PEntity e))
     | None =>
         MemcacheManager_set ext (_memcache_key cls obj) NO_OBJECT None ;;;
         pure None
     end) (set_perf pf w) = Ok r0 w0 -> same_store w w0).
  { intros pf w0 r0 H0. unfold bind in H0.
    destruct (get_entity_by_key_result ext cls (set_perf pf w) obj)
      as [Hg|(_ & ex & Hg)]; rewrite Hg in H0; [|done].
    set (w2 := set_db_gets _ _) in H0.
    assert (Hst2 : same_store w w2) by (destruct w; by repeat split).
    destruct (record_of ext cls (set_perf pf w) obj) as [e|].
    - destruct (set_result ext w2 (_memcache_key cls obj) (PEntity e))
        as (w3 & Hs & Hss & _).
      rewrite Hs in H0. inversion H0; subst.
      eapply same_store_trans; [exact Hst2|by apply same_services_store].
    - destruct (set_result ext w2 (_memcache_key cls obj) NO_OBJECT)
        as (w3 & Hs & Hss & _).
      rewrite Hs in H0. inversion H0; subst.
      eapply same_store_trans; [exact Hst2|by apply same_services_store]. }
  destruct (cached w (_memcache_key cls obj)) as [v|];
    cbn beta iota delta [from_option] in H.
  - destruct (eq_NO_OBJECT v); [inversion H; subst; apply Hperf|].
    destruct (negb (truthy (Some v))).
    + eapply Hmiss. exact H.
    + inversion H; subst; apply Hperf.
  - eapply Hmiss. exact H.
Qed.

Lemma create_if_necessary_frame cls d w e0 w1 :
  live w ->
  _create_if_necessary ext cls d w = Ok e0 w1 ->
  same_store w w1 /\ edata e0 = dumps ext (dto_dict d).
Proof.
  intros Hlive H. unfold _create_if_necessary, bind in H.
  destruct (_load_entity ext cls (dto_id d) w) as [r w0|] eqn:Hl; [|done].
  apply (load_entity_frame _ _ _ _ _ Hlive) in Hl.
  destruct (negb (truthy r)).
  - unfold new_entity in H.
    destruct (ENTITY_KEY_TYPE cls); [by inversion H; subst|].
    destruct (dto_id d) as [[?|?]|]; by inversion H; subst.
  - destruct r as [[| | e|]|]; by inversion H; subst.
Qed.

Lemma create_if_necessary_new cls d w :
  dto_id d = None ->
  _create_if_necessary ext cls d w
  = Ok (Entity None (dumps ext (dto_dict d))) w.
Proof.
  intros Hid. unfold _create_if_necessary, bind, new_entity. rewrite Hid.
  cbn. by destruct (ENTITY_KEY_TYPE cls).
Qed.



Lemma entity_put_eq (label_kind : string) (e : entity) w :
  entity_put label_kind e w
  = Ok (default (IdInt (next_id w)) (ekey e))
       match ekey e with
       | Some k =>
           set_datastore (upsert label_kind k (edata e) (datastore w))
             (set_db_puts (S (db_puts w)) w)
       | None =>
           set_next_id (next_id w + 1)
             (set_datastore
                (upsert label_kind (IdInt (next_id w)) (edata e) (datastore w))
                (set_db_puts (S (db_puts w)) w))
       end.
Proof.
  unfold entity_put, bind, modify, write_entity.
  destruct (ekey e); by destruct w.
Qed.

(** [save] from the entity that [_create_if_necessary] hands over. *)
Lemma save_after_create cls d w e0 w1 :
  _create_if_necessary ext cls d w = Ok e0 w1 ->
  live w1 ->
  let k := default (IdInt (next_id w1)) (ekey e0) in
  let e := Entity (Some k) (edata e0) in
  exists w',
    save ext cls d w = Ok k w' /\
    live w' /\
    datastore w' = upsert (kind cls) k (edata e0) (datastore w1) /\
    next_id w' = match ekey e0 with
                 | Some _ => next_id w1
                 | None => next_id w1 + 1
                 end /\
    db_puts w' = S (db_puts w1) /\
    db_gets w' = db_gets w1 /\
    db_queries w' = db_queries w1 /\
    hook_log w' = hook_log w1 /\
    cached w' (_memcache_all_key cls) = None /\
    (fits ext (PEntity e) ->
     cached w' (_memcache_key cls k) = Some (PEntity e)) /\
    (~ fits ext (PEntity e) ->
     cached w' (_memcache_key cls k) = cached w1 (_memcache_key cls k)) /\
    (forall key, key <> _memcache_all_key cls ->
                 key <> _memcache_key cls k ->
                 cached w' key = cached w1 key).
Proof.
  intros Hc Hlive1 k e. unfold save, bind. rewrite Hc.
  unfold before_put, pure. rewrite entity_put_eq. fold k.
  set (w2 := match ekey e0 with Some _ => _ | None => _ end).
  assert (Hw2 : live w2 /\
    datastore w2 = upsert (kind cls) k (edata e0) (datastore w1) /\
    next_id w2 = match ekey e0 with
                 | Some _ => next_id w1
                 | None => next_id w1 + 1
                 end /\
    db_puts w2 = S (db_puts w1) /\ db_gets w2 = db_gets w1 /\
    db_queries w2 = db_queries w1 /\ hook_log w2 = hook_log w1 /\
    current_namespace w2 = current_namespace w1 /\
    memcache w2 = memcache w1).
  { destruct Hlive1 as (? & ? & ?). subst w2 k. unfold live.
    destruct (ekey e0); destruct w1; cbn in *; by repeat split. }
  destruct Hw2 as (Hlive2 & Hds & Hnid & Hputs & Hgets & Hq & Hlog & Hns & Hmc).
  clearbody w2. rewrite (delete_live _ _ Hlive2).
  set (w3 := set_memcache _ _).
  assert (Hw3 : live w3 /\ datastore w3 = datastore w2 /\
    next_id w3 = next_id w2 /\ db_puts w3 = db_puts w2 /\
    db_gets w3 = db_gets w2 /\ db_queries w3 = db_queries w2 /\
    hook_log w3 = hook_log w2 /\
    current_namespace w3 = current_namespace w2 /\
    memcache w3
    = delete (current_namespace w2, _memcache_all_key cls) (memcache w2)).
  { destruct Hlive2 as (? & ? & ?). subst w3. unfold live.
    destruct w2; cbn in *; by repeat split. }
  destruct Hw3 as (Hlive3 & Hds3 & Hnid3 & Hputs3 & Hgets3 & Hq3 & Hlog3
                   & Hns3 & Hmc3).
  clearbody w3. unfold entity_key, id_or_name. cbn [ekey edata].
  unfold pure. fold e.
  pose proof (memcache_keys_distinct cls k) as Hne.
  destruct (set_live_result w3 (_memcache_key cls k) (PEntity e) Hlive3)
    as (w4 & Hset & Hlive4 & Hds4 & Hnid4 & Hputs4 & Hgets4 & Hq4 & Hlog4
        & Hns4 & Hfit & Hunfit).
  rewrite Hset. exists w4. split; [reflexivity|].
  assert (Hns' : current_namespace w4 = current_namespace w1)
    by congruence.
  unfold cached. rewrite Hns'.
  split; [exact Hlive4|]. do 6 (split; [congruence|]).
  assert (Hbase : memcache w3
    = delete (current_namespace w1, _memcache_all_key cls) (memcache w1))
    by congruence.
  assert (Hns3' : current_namespace w3 = current_namespace w1)
    by congruence.
  assert (Hdec : fits ext (PEntity e) \/ ~ fits ext (PEntity e))
    by (unfold fits, storable; lia).
  destruct Hdec as [Hf|Hf].
  - rewrite (Hfit Hf), Hns3', Hbase.
    split; [rewrite lookup_insert_ne by congruence; apply lookup_delete_eq|].
    split; [intros _; apply lookup_insert_eq|].
    split; [done|].
    intros key H1 H2. rewrite lookup_insert_ne by congruence.
    rewrite lookup_delete_ne; [done|congruence].
  - rewrite (Hunfit Hf), Hbase.
    split; [apply lookup_delete_eq|].
    split; [done|].
    split; [intros _; rewrite lookup_delete_ne; [done|congruence]|].
    intros key H1 H2. rewrite lookup_delete_ne; [done|congruence].
Qed.






(** ** Deleting *)





(** ** Writes under a snapshot *)

(** Under a snapshot [save] of a new DTO writes the datastore and then
    fails on the cache invalidation: the caller sees the assertion error,
    the record stays. *)
Theorem save_in_snapshot_writes_then_raises cls d w :
  _IS_READONLY w = true ->
  exists w',
    save ext cls (clone d) w = Raise (AssertionError "") w' /\
    db_find (kind cls) (IdInt (next_id w)) (datastore w')
      = Some (Entity (Some (IdInt (next_id w))) (dumps ext (dto_dict d))) /\
    db_puts w' = S (db_puts w) /\
    memcache w' = memcache w /\ _LOCAL_CACHE w' = _LOCAL_CACHE w.
Proof.
  intros Hro. unfold save, bind.
  rewrite (create_if_necessary_new cls (clone d) w eq_refl).
  destruct w as [lc ro n ctx can ns rq fs up mc pf ds nid g q p hl].
  cbn in Hro. subst ro.
  unfold before_put, entity_put, write_entity. run_cache.
  eexists. split; [reflexivity|]. cbn.
  split; [apply db_find_upsert|done].
Qed.

(** ** [LabelEntity] *)


(** Under a snapshot both [LabelEntity.put] and [LabelEntity.delete] have
    changed the datastore by the time the cache invalidation raises. *)
Theorem label_writes_in_snapshot_raise_late (label_kind : string)
    (k0 : obj_id) (data : string) w :
  _IS_READONLY w = true ->
  let e := Entity (Some k0) data in
  (exists w',
     LabelEntity_put label_kind e w = Raise (AssertionError "") w' /\
     db_find label_kind k0 (datastore w') = Some e) /\
  (exists w',
     LabelEntity_delete label_kind e w = Raise (AssertionError "") w' /\
     db_find label_kind k0 (datastore w') = None).
Proof.
  intros Hro e.
  destruct w as [lc ro n ctx can ns rq fs up mc pf ds nid g q p hl].
  cbn in Hro. subst ro e. split.
  - unfold LabelEntity_put, entity_put, write_entity. run_cache.
    eexists. split; [reflexivity|]. cbn. apply db_find_upsert.
  - unfold LabelEntity_delete, entity_delete. run_cache.
    eexists. split; [reflexivity|]. cbn. apply db_find_filter.
Qed.

(** ** [save_all] of new DTOs *)





(** ** The aggregate of a kind *)

Lemma db_find_elem_of (label_kind : string) (k : obj_id)
    (rows : list (string * obj_id * string)) (e : entity) :
  db_find label_kind k rows = Some e -> (label_kind, k) ∈ fst <$> rows.
Proof.
  induction rows as [|row rows IH]; [done|]. cbn.
  case_bool_decide as H.
  - intros _. rewrite H. apply list_elem_of_here.
  - intros Hf. apply list_elem_of_further. by apply IH.
Qed.

Lemma db_find_app (label_kind : string) (k : obj_id)
    (rows rows' : list (string * obj_id * string)) :
  db_find label_kind k (rows ++ rows')
  = match db_find label_kind k rows with
    | Some e => Some e
    | None => db_find label_kind k rows'
    end.
Proof.
  induction rows as [|row rows IH]; [done|]. cbn.
  by case_bool_decide.
Qed.

Lemma rows_of_kind_app (label_kind : string)
    (rows rows' : list (string * obj_id * string)) :
  rows_of_kind label_kind (rows ++ rows')
  = rows_of_kind label_kind rows ++ rows_of_kind label_kind rows'.
Proof. unfold rows_of_kind. by rewrite filter_app, fmap_app. Qed.

Lemma dict_by_id_snoc (dtos : list (@dto json)) (d : dto) :
  dict_by_id (dtos ++ [d])
  = match dto_id d with
    | Some i => <[i := d]> (dict_by_id dtos)
    | None => dict_by_id dtos
    end.
Proof. unfold dict_by_id. by rewrite foldl_app. Qed.

(** With one row per key, the mapping built from the rows of a kind is the
    datastore of that kind read as DTOs. *)
Lemma dict_by_id_lookup cls (rows : list (string * obj_id * string))
    (obj : obj_id) :
  unique_keys rows ->
  dict_by_id (dtos_of_rows ext (rows_of_kind (kind cls) rows)) !! obj
  = (fun e => DTO (Some obj) (loads ext (edata e)))
      <$> db_find (kind cls) obj rows.
Proof.
  unfold unique_keys.
  induction rows as [|row rows IH] using rev_ind; [done|].
  rewrite fmap_app, NoDup_app. intros (Hnd & Hdisj & _).
  specialize (IH Hnd). rewrite rows_of_kind_app, db_find_app.
  unfold dtos_of_rows in *. rewrite fmap_app.
  destruct row as [[rk ro] rd].
  unfold rows_of_kind at 2. rewrite filter_cons, filter_nil.
  case_decide as Hk; cbn [fst snd] in Hk.
  - subst rk. cbn [fmap list_fmap fst snd ekey edata option_fmap option_map].
    rewrite dict_by_id_snoc. cbn [dto_id].
    change (id_or_name ro) with ro.
    destruct (decide (obj = ro)) as [->|Hne].
    + rewrite lookup_insert_eq.
      destruct (db_find (kind cls) ro rows) as [e|] eqn:Hf.
      * exfalso. apply db_find_elem_of in Hf.
        apply (Hdisj _ Hf). cbn. apply list_elem_of_here.
      * cbn. by rewrite bool_decide_eq_true_2.
    + rewrite lookup_insert_ne by done. rewrite IH.
      destruct (db_find (kind cls) obj rows) as [e|]; [done|].
      cbn. by rewrite bool_decide_eq_false_2 by congruence.
  - cbn [fmap list_fmap]. rewrite app_nil_r, IH.
    destruct (db_find (kind cls) obj rows) as [e|]; [done|].
    cbn. by rewrite bool_decide_eq_false_2 by congruence.
Qed.

Lemma upsert_keys (label_kind : string) (k : obj_id) (data : string)
    (rows : list (string * obj_id * string)) :
  fst <$> upsert label_kind k data rows
  = if bool_decide ((label_kind, k) ∈ fst <$> rows)
    then fst <$> rows
    else (fst <$> rows) ++ [(label_kind, k)].
Proof.
  induction rows as [|row rows IH]; [done|]. cbn.
  destruct (decide (fst row = (label_kind, k))) as [H|H].
  - rewrite (bool_decide_eq_true_2 _ H). cbn.
    assert (Hin : (label_kind, k) ∈ fst row :: (fst <$> rows))
      by (rewrite H; apply list_elem_of_here).
    rewrite (bool_decide_eq_true_2 _ Hin). by rewrite H.
  - rewrite (bool_decide_eq_false_2 _ H). cbn. rewrite IH.
    destruct (decide ((label_kind, k) ∈ fst <$> rows)) as [Hin|Hin].
    + rewrite (bool_decide_eq_true_2 _ Hin).
      assert (Hin' : (label_kind, k) ∈ fst row :: (fst <$> rows))
        by (by apply list_elem_of_further).
      by rewrite (bool_decide_eq_true_2 _ Hin').
    + rewrite (bool_decide_eq_false_2 _ Hin).
      assert (Hin' : (label_kind, k) ∉ fst row :: (fst <$> rows)).
      { rewrite elem_of_cons. intros [Heq|Hin']; [by apply H|by apply Hin]. }
      by rewrite (bool_decide_eq_false_2 _ Hin').
Qed.

(** Writing one row keeps one row per key. *)
Lemma upsert_unique (label_kind : string) (k : obj_id) (data : string)
    (rows : list (string * obj_id * string)) :
  unique_keys rows -> unique_keys (upsert label_kind k data rows).
Proof.
  unfold unique_keys. intros Hnd. rewrite upsert_keys.
  case_bool_decide as Hin; [done|].
  apply NoDup_app. split; [done|]. split; [|apply NoDup_singleton].
  intros x Hx Hx'. apply list_elem_of_singleton in Hx'. by subst.
Qed.

Lemma get_all_mapped_miss cls w :
  live w ->
  cached w (_memcache_all_key cls) = None ->
  let m := dict_by_id
             (dtos_of_rows ext (rows_of_kind (kind cls) (datastore w))) in
  exists w',
    get_all_mapped ext cls w = Ok (PDict m) w' /\
    live w' /\ datastore w' = datastore w /\ db_gets w' = db_gets w /\
    db_puts w' = db_puts w /\
    (db_queries w < db_queries w')%nat /\
    (m <> ∅ -> fits ext (PDict m) ->
     cached w' (_memcache_all_key cls) = Some (PDict m)).
Proof.
  intros Hlive Hc m. unfold get_all_mapped, bind.
  rewrite (get_live _ _ Hlive), Hc.
  cbn beta iota. rewrite get_all_iter_result.
  replace (datastore (set_perf (inc_CACHE_MISS (perf w)) w))
    with (datastore w) by (by destruct w).
  fold m.
  set (w1 := set_db_queries _ _).
  assert (Hlive1 : live w1)
    by (destruct Hlive as (? & ? & ?); subst w1; by destruct w).
  assert (Hq : (db_queries w < db_queries w1)%nat).
  { subst w1. destruct w; cbn.
    match goal with |- context [match ?l with [] => _ | _ :: _ => _ end] =>
      destruct l end; lia. }
  assert (Hf : datastore w1 = datastore w /\ db_gets w1 = db_gets w /\
               db_puts w1 = db_puts w) by (subst w1; by destruct w).
  destruct Hf as (Hd1 & Hg1 & Hp1).
  destruct (set_result ext w1 (_memcache_all_key cls)
              (if bool_decide (m = ∅) then NO_OBJECT else PDict m))
    as (w' & Hs & Hss & _).
  rewrite Hs. exists w'. split; [done|].
  pose proof (same_store_live _ _ (same_services_store _ _ Hss) Hlive1)
    as Hlive'.
  unfold same_services in Hss. destruct_and!.
  split; [done|]. split; [congruence|]. split; [congruence|].
  split; [congruence|]. split; [lia|].
  intros Hne (Hsize & Hstor). rewrite bool_decide_eq_false_2 in Hs by done.
  rewrite (set_live ext _ _ _ Hlive1 Hsize Hstor) in Hs.
  injection Hs as <-. unfold cached. subst w1. destruct w; cbn.
  by rewrite lookup_insert_eq.
Qed.


(** After a [save] the next [get_all_mapped] scans the datastore again
    and maps the returned key to the saved payload as it deserializes. *)
Theorem get_all_mapped_sees_saved cls d w k w' :
  live w ->
  unique_keys (datastore w) ->
  save ext cls d w = Ok k w' ->
  exists m w'',
    get_all_mapped ext cls w' = Ok (PDict m) w'' /\
    m !! k = Some (DTO (Some k) (loads ext (dumps ext (dto_dict d)))) /\
    (db_queries w' < db_queries w'')%nat.
Proof.
  intros Hlive Huniq Hsave.
  destruct (_create_if_necessary ext cls d w) as [e0 w1|ex w1] eqn:Hc.
  2: { unfold save, bind in Hsave. by rewrite Hc in Hsave. }
  destruct (create_if_necessary_frame _ _ _ _ _ Hlive Hc) as (Hst & Hdata).
  pose proof (same_store_live _ _ Hst Hlive) as Hlive1.
  destruct (save_after_create _ _ _ _ _ Hc Hlive1)
    as (w0 & Hs & Hlive' & Hds & _ & _ & _ & _ & _ & Hall & _).
  rewrite Hs in Hsave. injection Hsave as Hk Hw. subst w0.
  rewrite Hk, Hdata in *.
  assert (Huniq' : unique_keys (datastore w')).
  { rewrite Hds. apply upsert_unique.
    unfold same_store in Hst. destruct_and!. congruence. }
  destruct (get_all_mapped_miss cls w' Hlive' Hall)
    as (w'' & Hg & _ & _ & _ & _ & Hq & _).
  eexists _, w''. split; [exact Hg|]. split; [|exact Hq].
  rewrite (dict_by_id_lookup cls _ k Huniq'), Hds, db_find_upsert. done.
Qed.

(** ** [LabelManager] *)

(** The first [_get_all] of a manager scans the labels and indexes them by
    id; the list it returns holds exactly the indexed DTOs.  From then on
    the manager answers from its index in any world, without a query,
    whatever has been written since. *)
Theorem label_manager_memoises cls w :
  unique_keys (datastore w) ->
  exists m l w',
    LabelManager_get_all ext cls None w = Ok (Some m, l) w' /\
    (forall obj,
       m !! obj = (fun e => DTO (Some obj) (loads ext (edata e)))
                    <$> db_find (kind cls) obj (datastore w)) /\
    (forall d, d ∈ l <-> exists obj, m !! obj = Some d) /\
    memcache w' = memcache w /\
    (forall w2, LabelManager_get_all ext cls (Some m) w2 = Ok (Some m, l) w2).
Proof.
  intros Huniq. unfold LabelManager_get_all, LabelManager_preload, bind.
  rewrite get_all_iter_result. eexists _, _, _.
  split; [reflexivity|].
  split; [intros obj; by apply dict_by_id_lookup|].
  split; [|split; [by destruct w|done]].
  intros d. rewrite list_elem_of_fmap. split.
  - intros ([obj d'] & -> & Hin). exists obj.
    by apply elem_of_map_to_list in Hin.
  - intros (obj & Hin). exists (obj, d). split; [done|].
    by apply elem_of_map_to_list.
Qed.

(** ** Reads during an outage *)


(** ** Composite keys *)

Lemma split_once_app (sep : Ascii.ascii) (a b : string) :
  contains sep a = false ->
  split_once sep (a +:+ String sep b) = Some (a, b).
Proof.
  induction a as [|c a IH]; simpl.
  - intros _. by rewrite Ascii.eqb_refl.
  - destruct (Ascii.eqb c sep); [done|]. intros Hc. by rewrite (IH Hc).
Qed.

Lemma split_once_Some (sep : Ascii.ascii) (s a b : string) :
  split_once sep s = Some (a, b) ->
  s = a +:+ String sep b /\ contains sep a = false.
Proof.
  revert a. induction s as [|c s IH]; intros a;
    cbn [split_once]; [done|].
  destruct (Ascii.eqb c sep) eqn:Hc.
  - intros [= <- <-]. apply Ascii.eqb_eq in Hc. by subst.
  - destruct (split_once sep s) as [[a' b']|]; [|done].
    intros [= <- <-]. destruct (IH a' eq_refl) as (-> & Hn).
    simpl. by rewrite Hc.
Qed.

Lemma contains_app (sep : Ascii.ascii) (a b : string) :
  contains sep (a +:+ String sep b) = true.
Proof.
  induction a as [|c a IH]; simpl.
  - by rewrite Ascii.eqb_refl.
  - by destruct (Ascii.eqb c sep).
Qed.

(** [make_uid] and [_split_uid] are inverse to each other: a uid that
    [make_uid] returns splits into the two parts it was made from, and
    the parts [_split_uid] returns make the uid again. *)
Theorem uid_round_trip (type_id resource_id uid : option string) :
  make_uid type_id resource_id = inr uid <->
  _split_uid uid = inr (type_id, resource_id).
Proof.
  unfold make_uid, _split_uid. split.
  - destruct type_id as [t|], resource_id as [r|]; cbn;
      try (by intros [= <-]);
      rewrite ?andb_false_r; try done.
    destruct (negb (t =? "")%string) eqn:Ht; cbn; [|done].
    destruct (negb (r =? "")%string) eqn:Hr; cbn; [|done].
    destruct (contains ":" t) eqn:Hc; cbn; [done|].
    intros [= <-].
    change (t +:+ ":" +:+ r) with (t +:+ String ":" r).
    rewrite (split_once_app _ _ _ Hc). cbn. by rewrite Ht, Hr.
  - destruct uid as [u|]; [|by intros [= <- <-]].
    destruct (split_once ":" u) as [[a b]|] eqn:Hs; [|done].
    destruct (truthy_str (Some a) && truthy_str (Some b)) eqn:Ht; [|done].
    intros [= <- <-]. destruct (split_once_Some _ _ _ _ Hs) as (-> & Hc).
    cbn [default from_option id]. rewrite Ht, Hc. done.
Qed.

(** [safe_key] transforms the text before the first hyphen of the key
    name and keeps the rest: on a name without a hyphen it raises; on a
    key that [create_key] made from a student id without a hyphen it
    gives the key of the transformed id and the same property. *)
Theorem safe_key_transforms_user_part (db_key_name : string)
    (transform_fn : string -> string) :
  (contains "-" db_key_name = false ->
   safe_key db_key_name transform_fn = inl ValueError) /\
  (forall result, safe_key db_key_name transform_fn = inr result ->
     exists user_id name,
       db_key_name = create_key user_id name /\
       contains "-" user_id = false /\
       result = create_key (transform_fn user_id) name) /\
  (forall student_id property_name,
     contains "-" student_id = false ->
     safe_key (create_key student_id property_name) transform_fn
     = inr (create_key (transform_fn student_id) property_name)).
Proof.
  unfold safe_key, create_key. split; [|split].
  - intros Hc. destruct (split_once "-" db_key_name) as [[a b]|] eqn:Hs;
      [|done].
    destruct (split_once_Some _ _ _ _ Hs) as (-> & Ha).
    by rewrite contains_app in Hc.
  - intros result.
    destruct (split_once "-" db_key_name) as [[a b]|] eqn:Hs; [|done].
    intros [= <-]. destruct (split_once_Some _ _ _ _ Hs) as (-> & Ha).
    by exists a, b.
  - intros student_id property_name Hc.
    change (student_id +:+ "-" +:+ property_name)
      with (student_id +:+ String "-" property_name).
    by rewrite (split_once_app _ _ _ Hc).
Qed.

End Further.

(** * Closed instances of the further properties *)

Lemma caching_disabled_is_inert_witness :
  CAN_USE_MEMCACHE ex_world_off = false /\
  MemcacheManager_get "k" None ex_world_off = Ok None ex_world_off /\
  MemcacheManager_set ex_ext "k" (PInt 7) None ex_world_off
  = Ok tt ex_world_off.
Proof.
  split; [reflexivity|].
  destruct (caching_disabled_is_inert ex_ext ex_world_off "k" [] (PInt 7) ∅ 1
              None eq_refl) as (Ha & _ & Hb & _).
  split; [exact Ha|exact Hb].
Defined.






Lemma delete_forbidden_in_snapshot_witness :
  _IS_READONLY ex_world_snapshot = true /\
  MemcacheManager_delete "k1" None ex_world_snapshot
  = Raise (AssertionError "") ex_world_snapshot.
Proof.
  split; [reflexivity|].
  exact (proj1 (delete_forbidden_in_snapshot ex_world_snapshot "k1" [] None
                  eq_refl)).
Defined.

Lemma clear_readonly_cache_resets_witness :
  exists w',
    clear_readonly_cache ex_world_foreign = Ok tt w' /\
    snapshot_cleared w' /\
    1%nat ∉ fs_readonly w'.
Proof.
  destruct (clear_readonly_cache_resets ex_world_foreign)
    as (w' & Ha & Hb & Hc & _).
  exists w'. split; [exact Ha|]. split; [exact Hb|].
  apply Hc. reflexivity.
Defined.

Lemma nested_snapshot_unwinds_witness :
  snapshot_initial ex_world /\
  exists w',
    run_all (replicate 3 Begin ++ replicate 3 Finish) ex_world = Ok tt w' /\
    snapshot_cleared w'.
Proof.
  assert (H1 : snapshot_initial ex_world) by (by repeat split).
  split; [exact H1|].
  destruct (nested_snapshot_unwinds 3 ex_world H1) as (w' & Ha & Hb & _).
  exists w'. split; [exact Ha|exact Hb].
Defined.











Lemma save_in_snapshot_writes_then_raises_witness :
  _IS_READONLY ex_world_snapshot = true /\
  exists w',
    save ex_ext ex_dao (clone (DTO None "{x:1}")) ex_world_snapshot
    = Raise (AssertionError "") w' /\
    db_find (kind ex_dao) (IdInt 1) (datastore w')
    = Some (Entity (Some (IdInt 1)) "{x:1}").
Proof.
  split; [reflexivity|].
  destruct (save_in_snapshot_writes_then_raises ex_ext ex_dao
              (DTO None "{x:1}") ex_world_snapshot eq_refl)
    as (w' & Ha & Hb & _).
  exists w'. split; [exact Ha|exact Hb].
Defined.


Lemma label_writes_in_snapshot_raise_late_witness :
  _IS_READONLY ex_world_snapshot = true /\
  exists w',
    LabelEntity_put "LabelEntity" (Entity (Some (IdInt 1)) "{}")
      ex_world_snapshot = Raise (AssertionError "") w' /\
    db_find "LabelEntity" (IdInt 1) (datastore w')
    = Some (Entity (Some (IdInt 1)) "{}").
Proof.
  split; [reflexivity|].
  exact (proj1 (label_writes_in_snapshot_raise_late (json := string)
                  "LabelEntity" (IdInt 1) "{}" ex_world_snapshot eq_refl)).
Defined.



Lemma get_all_mapped_sees_saved_witness :
  let d := DTO None "{y:2}" in
  let w' := world_of (save ex_ext ex_dao d ex_world_stored) in
  live ex_world_stored /\
  unique_keys (datastore ex_world_stored) /\
  save ex_ext ex_dao d ex_world_stored = Ok (IdInt 1) w' /\
  exists m w'',
    get_all_mapped ex_ext ex_dao w' = Ok (PDict m) w'' /\
    m !! IdInt 1 = Some (DTO (Some (IdInt 1)) "{y:2}").
Proof.
  cbv zeta.
  assert (H1 : live ex_world_stored) by (by repeat split).
  assert (H2 : unique_keys (datastore ex_world_stored))
    by (apply NoDup_singleton).
  assert (H3 : save ex_ext ex_dao (DTO None "{y:2}") ex_world_stored
               = Ok (IdInt 1)
                    (world_of (save ex_ext ex_dao (DTO None "{y:2}")
                                 ex_world_stored)))
    by (vm_compute; reflexivity).
  split; [exact H1|]. split; [exact H2|]. split; [exact H3|].
  destruct (get_all_mapped_sees_saved ex_ext ex_dao (DTO None "{y:2}")
              ex_world_stored (IdInt 1) _ H1 H2 H3)
    as (m & w'' & Ha & Hb & _).
  exists m, w''. split; [exact Ha|exact Hb].
Defined.

Lemma label_manager_memoises_witness :
  unique_keys (datastore ex_world_stored) /\
  exists m l w',
    LabelManager_get_all ex_ext ex_dao None ex_world_stored
    = Ok (Some m, l) w' /\
    LabelManager_get_all ex_ext ex_dao (Some m) ex_world
    = Ok (Some m, l) ex_world.
Proof.
  assert (H1 : unique_keys (datastore ex_world_stored))
    by (apply NoDup_singleton).
  split; [exact H1|].
  destruct (label_manager_memoises ex_ext ex_dao ex_world_stored H1)
    as (m & l & w' & Ha & _ & _ & _ & Hb).
  exists m, l, w'. split; [exact Ha|exact (Hb ex_world)].
Defined.

Lemma uid_round_trip_witness :
  make_uid (Some "question") (Some "42") = inr (Some "question:42") /\
  _split_uid (Some "question:42") = inr (Some "question", Some "42").
Proof.
  assert (H1 : make_uid (Some "question") (Some "42")
               = inr (Some "question:42")) by reflexivity.
  split; [exact H1|].
  exact (proj1 (uid_round_trip (Some "question") (Some "42")
                  (Some "question:42")) H1).
Defined.

Lemma safe_key_transforms_user_part_witness :
  contains "-" "123" = false /\
  safe_key (create_key "123" "scores") (fun user_id => "u" +:+ user_id)
  = inr (create_key "u123" "scores").
Proof.
  assert (H1 : contains "-" "123" = false) by reflexivity.
  split; [exact H1|].
  destruct (safe_key_transforms_user_part "" (fun user_id => "u" +:+ user_id))
    as (_ & _ & Ha).
  exact (Ha "123" "scores" H1).
Defined.
